(** * Silver layer of the medical analysis pipeline

    A shallow embedding of [scripts/2_silver_layer_construction.py]: the five
    transforms of [SilverLayer], the pandera schemas, the loader
    [_load_to_silver] and the orchestrator [load_silver], followed by the
    properties of the specification that concern them. *)

From Stdlib Require Import ZArith QArith Lia Ascii String.
From stdpp Require Import gmap strings list fin_maps sorting.

Local Close Scope Q_scope.
Set Warnings "-clear-no-such-hyp".

Local Open Scope string_scope.
Local Open Scope Z_scope.

(** * Cells, time and the pandas interface *)

(** A Bronze table is read back from the store with every data column of
    type text: a cell is a Python [str] or [None]. *)
Abbreviation cell := (option string).

(** A [Timestamp] is a number of nanoseconds since the epoch (pandas'
    [Timestamp.value]); in a datetime column [None] is [NaT]. *)
Abbreviation Timestamp := Z.

Definition NS_PER_DAY : Z := 86400000000000.

(** [Timedelta.days]: the whole days of a difference, rounded down. *)
Definition days (delta : Z) : Z := delta `div` NS_PER_DAY.

(** Order in which [sort_values] leaves a datetime column: ascending, with
    [NaT] after every date ([na_position='last']). *)
Definition NaT_last_le (x y : option Timestamp) : Prop :=
  match x, y with
  | Some a, Some b => a ≤ b
  | _, None => True
  | None, Some _ => False
  end.

(** The library functions the transforms call. [to_datetime] and
    [to_numeric] are the calls with [errors='coerce']; [to_datetime] works on
    a whole column, since pandas may infer one format for all its cells.
    [sort_values] is the default (quicksort) ordering of a frame by one
    datetime column: a sorted rearrangement, with nothing promised about the
    order of rows with equal keys. A float64 cell is the rational it
    denotes (the infinities are outside the model), and [group_sum] is the
    ['sum'] aggregation of [groupby] over the cells of one group, in the
    order of the rows: the library's floating-point summation, which
    rounds, so it is not the sum of the rationals; a group of one cell sums
    to that cell. *)
Class Pandas := {
  to_datetime : list cell → list (option Timestamp);
  to_datetime_length : ∀ col, length (to_datetime col) = length col;
  to_numeric : string → option Q;
  group_sum : list Q → Q;
  group_sum_singleton : ∀ x, group_sum [x] = x;
  str_title : string → string;
  str_upper : string → string;
  sort_values : ∀ {A : Type}, (A → option Timestamp) → list A → list A;
  sort_values_perm : ∀ (A : Type) (by_ : A → option Timestamp) (df : list A),
    sort_values by_ df ≡ₚ df;
  sort_values_sorted : ∀ (A : Type) (by_ : A → option Timestamp) (df : list A),
    StronglySorted (λ a b, NaT_last_le (by_ a) (by_ b)) (sort_values by_ df);
}.

(** Exceptions raised inside a transform's [try] block. *)
Inductive exn :=
  | KeyError (column : string)
  | IntCastingNaNError.

(** [pd.to_numeric(col, errors='coerce').fillna(0)] on one cell. *)
Definition to_numeric_fillna `{Pandas} (c : cell) : Q :=
  match c with
  | Some s => default 0%Q (to_numeric s)
  | None => 0%Q
  end.

(** [df.dropna(subset=...)]: keep the rows with no null in the listed columns. *)
Definition dropna {A} (subset : list (A → cell)) (df : list A) : list A :=
  filter (λ r, Forall (λ col, is_Some (col r)) subset) df.

(** [df.drop_duplicates(key, keep='last')]: a row stays when no later row has
    the same key; null keys are equal to each other. *)
Fixpoint drop_duplicates_last {A} (key : A → cell) (df : list A) : list A :=
  match df with
  | [] => []
  | r :: df' =>
      if decide (key r ∈ key <$> df') then drop_duplicates_last key df'
      else r :: drop_duplicates_last key df'
  end.

(** [left.merge(right, on=key, how='left')]: every left row, in order, once
    per right row with the same key (null keys match each other), or once
    with nulls on the right when no right row matches. *)
Definition merge_left {A B C} (kl : A → cell) (kr : B → cell)
    (mk : A → option B → C) (left : list A) (right : list B) : list C :=
  left ≫= λ a,
    match filter (λ b, kr b = kl a) right with
    | [] => [mk a None]
    | bs => mk a ∘ Some <$> bs
    end.

(** * Bronze rows: the columns the Silver transforms read *)

Module BPatient.
Record t := mk {
  patient_id : cell; first_name : cell; last_name : cell;
  date_of_birth : cell; gender : cell }.
End BPatient.

Module BEncounter.
Record t := mk {
  encounter_id : cell; patient_id : cell; provider_id : cell;
  payer_id : cell; encounter_date : cell; discharge_date : cell;
  encounter_type : cell; total_claim_cost : cell; payer_coverage : cell }.
End BEncounter.

Module BClaim.
Record t := mk {
  claim_id : cell; patient_id : cell; provider_id : cell;
  claim_start_date : cell; claim_end_date : cell }.
End BClaim.

Module BTransaction.
Record t := mk {
  transaction_id : cell; claim_id : cell; transaction_date : cell;
  transaction_amount : cell; procedure_code : cell; type : cell;
  payments : cell; outstanding : cell }.
End BTransaction.

Module BPayer.
Record t := mk { payer_id : cell; payer_name : cell }.
End BPayer.

(** * Candidate Silver rows, in the column order of the schemas *)

Module SPatient.
Record t := mk {
  patient_id : cell; first_name : cell; last_name : cell;
  date_of_birth : option Timestamp; gender : cell; age : Z;
  payer_id : cell; payer_name : cell }.
End SPatient.

Module SClaim.
Record t := mk {
  claim_id : cell; patient_id : cell; provider_id : cell;
  claim_start_date : option Timestamp; claim_end_date : option Timestamp;
  total_billed_amount : Q; total_paid_amount : Q;
  patient_responsibility_amount : Q }.
End SClaim.

Module STransaction.
Record t := mk {
  transaction_id : cell; claim_id : cell;
  transaction_date : option Timestamp; transaction_amount : Q;
  procedure_code : cell; transaction_type : cell }.
End STransaction.

Module SEncounter.
Record t := mk {
  encounter_id : cell; patient_id : cell; provider_id : cell;
  payer_id : cell; encounter_date : option Timestamp;
  discharge_date : option Timestamp; encounter_type : cell;
  length_of_stay_days : Z; total_claim_cost : Q; payer_coverage : Q }.
End SEncounter.

Module SPayer.
Record t := mk { payer_id : cell; payer_name : cell }.
End SPayer.

(** * The transforms *)

Definition DEFAULT_STRING : string := "Unknown".
Definition DEFAULT_PAYER : string := "Self-Pay / Unspecified".

(** [(days / 365.25).astype(int)] on one whole number of days: the quotient
    cut towards zero. 365.25 is the binary fraction 1461/4, and for the
    day counts a nanosecond timestamp can give the rounded quotient lies
    between the same two integers as the exact one. *)
Definition age_of_days (d : Z) : Z := (4 * d) `quot` 1461.

(** [.astype(int)] of the age column: any [NaT] birth date makes the column
    hold a NaN and the cast raise. *)
Fixpoint astype_int_age (processing_timestamp : Timestamp)
    (dob : list (option Timestamp)) : exn + list Z :=
  match dob with
  | [] => inr []
  | None :: _ => inl IntCastingNaNError
  | Some d :: dob' =>
      match astype_int_age processing_timestamp dob' with
      | inl e => inl e
      | inr ages => inr (age_of_days (days (processing_timestamp - d)) :: ages)
      end
  end.

(** [.fillna('Unknown').replace({'M': 'Male', 'F': 'Female', 'O': 'Other'})] *)
Definition replace_gender (g : string) : string :=
  if decide (g = "M") then "Male"
  else if decide (g = "F") then "Female"
  else if decide (g = "O") then "Other"
  else g.

Definition normalize_gender (g : cell) : cell :=
  Some (replace_gender (default DEFAULT_STRING g)).

(** A row of [patient_payer_map]. *)
Module PayerMap.
Record t := mk {
  patient_id : cell; payer_id : cell; encounter_date : option Timestamp }.
End PayerMap.

Section Transforms.
Context `{Pandas}.

(** [patient_payer_map]: the encounters' patient, payer and parsed date,
    sorted by date, one row kept per patient. *)
Definition patient_payer_map (df_encounters : list BEncounter.t) : list PayerMap.t :=
  let dates := to_datetime (BEncounter.encounter_date <$> df_encounters) in
  let m := zip_with
    (λ e d, PayerMap.mk (BEncounter.patient_id e) (BEncounter.payer_id e) d)
    df_encounters dates in
  drop_duplicates_last PayerMap.patient_id (sort_values PayerMap.encounter_date m).

(** The patient rows before the payer enrichment. *)
Definition patients_base (processing_timestamp : Timestamp)
    (df_patients : list BPatient.t) : exn + list SPatient.t :=
  let df := dropna [BPatient.patient_id; BPatient.date_of_birth;
                    BPatient.first_name; BPatient.last_name] df_patients in
  let dob := to_datetime (BPatient.date_of_birth <$> df) in
  match astype_int_age processing_timestamp dob with
  | inl e => inl e
  | inr ages =>
      inr (zip_with (λ '(p, d) a,
        SPatient.mk (BPatient.patient_id p)
          (str_title <$> BPatient.first_name p)
          (str_title <$> BPatient.last_name p)
          d (normalize_gender (BPatient.gender p)) a None None)
        (zip df dob) ages)
  end.

(** The body of the [try] block of [_transform_patients]. Bronze patients
    carry no [payer_id] column: when the encounters frame is empty the
    column is never merged in, and the merge with the payers on it raises. *)
Definition transform_patients_try (processing_timestamp : Timestamp)
    (df_patients : list BPatient.t) (df_encounters : list BEncounter.t)
    (df_payers : list BPayer.t) : exn + list SPatient.t :=
  match patients_base processing_timestamp df_patients with
  | inl e => inl e
  | inr df =>
      let df1 :=
        if decide (df_encounters = []) then df
        else merge_left SPatient.patient_id PayerMap.patient_id
               (λ p m, let 'SPatient.mk pid fn ln dob g a _ pn := p in
                       SPatient.mk pid fn ln dob g a (m ≫= PayerMap.payer_id) pn)
               df (patient_payer_map df_encounters) in
      if decide (df_payers = []) then
        inr ((λ p, let 'SPatient.mk pid fn ln dob g a _ _ := p in
                   SPatient.mk pid fn ln dob g a None (Some DEFAULT_PAYER)) <$> df1)
      else if decide (df_encounters = []) then inl (KeyError "payer_id")
      else
        let payers_clean := dropna [BPayer.payer_id; BPayer.payer_name] df_payers in
        inr (merge_left SPatient.payer_id BPayer.payer_id
               (λ p m, let 'SPatient.mk pid fn ln dob g a py _ := p in
                       SPatient.mk pid fn ln dob g a py
                         (Some (default DEFAULT_PAYER (m ≫= BPayer.payer_name))))
               df1 payers_clean)
  end.

Definition _transform_patients (processing_timestamp : Timestamp)
    (df_patients : list BPatient.t) (df_encounters : list BEncounter.t)
    (df_payers : list BPayer.t) : list SPatient.t :=
  if decide (df_patients = []) then []
  else match transform_patients_try processing_timestamp
               df_patients df_encounters df_payers with
       | inr df => df
       | inl _ => []
       end.

(** [trans_clean.groupby('claim_id')]: the rows of each group, in the
    order of the frame; rows with a null key belong to no group. *)
Definition groupby_claim_id (df_transactions : list BTransaction.t)
    : gmap string (list BTransaction.t) :=
  foldl (λ m t,
    match BTransaction.claim_id t with
    | None => m
    | Some k => <[k := (default [] (m !! k) ++ [t])%list]> m
    end) ∅ df_transactions.

(** [.agg(total_billed_amount=('transaction_amount', 'sum'), ...)]: the
    library's sum of each of the three columns over each group, the cells
    made numeric before the grouping. *)
Definition claim_financials (df_transactions : list BTransaction.t)
    : gmap string (Q * Q * Q) :=
  (λ group,
     (group_sum
        ((λ t, to_numeric_fillna (BTransaction.transaction_amount t)) <$> group),
      group_sum ((λ t, to_numeric_fillna (BTransaction.payments t)) <$> group),
      group_sum ((λ t, to_numeric_fillna (BTransaction.outstanding t)) <$> group)))
  <$> groupby_claim_id df_transactions.

(** The claim rows with both dates parsed, before the required-field drop. *)
Definition claims_dated (df_claims : list BClaim.t)
    : list (BClaim.t * option Timestamp * option Timestamp) :=
  zip (zip df_claims (to_datetime (BClaim.claim_start_date <$> df_claims)))
      (to_datetime (BClaim.claim_end_date <$> df_claims)).

Definition _transform_claims (df_claims : list BClaim.t)
    (df_transactions : list BTransaction.t) : list SClaim.t :=
  if decide (df_claims = []) then []
  else
    let df := filter (λ '(c, start, _),
                is_Some (BClaim.claim_id c) ∧ is_Some (BClaim.patient_id c)
                ∧ is_Some start) (claims_dated df_claims) in
    let financials := claim_financials df_transactions in
    (λ '(c, start, stop),
       let '(billed, paid, resp) :=
         if decide (df_transactions = []) then (0, 0, 0)%Q
         else default (0, 0, 0)%Q (BClaim.claim_id c ≫= (financials !!.)) in
       SClaim.mk (BClaim.claim_id c) (BClaim.patient_id c) (BClaim.provider_id c)
         start stop billed paid resp) <$> df.

(** The transaction rows with the date parsed, before the required-field drop. *)
Definition transactions_dated (df_trans : list BTransaction.t)
    : list (BTransaction.t * option Timestamp) :=
  zip df_trans (to_datetime (BTransaction.transaction_date <$> df_trans)).

Definition silver_transaction (td : BTransaction.t * option Timestamp)
    : STransaction.t :=
  let '(t, d) := td in
  STransaction.mk (BTransaction.transaction_id t) (BTransaction.claim_id t) d
    (to_numeric_fillna (BTransaction.transaction_amount t))
    (BTransaction.procedure_code t) (str_upper <$> BTransaction.type t).

Definition _transform_claims_transactions (df_trans : list BTransaction.t)
    : list STransaction.t :=
  if decide (df_trans = []) then []
  else
    silver_transaction <$>
      filter (λ '(t, d),
        is_Some (BTransaction.transaction_id t) ∧ is_Some (BTransaction.claim_id t)
        ∧ is_Some d) (transactions_dated df_trans).

(** [(discharge_date - encounter_date).dt.days], negative values set to 0,
    then [.fillna(0).astype(int)]. *)
Definition length_of_stay (encounter_date discharge_date : option Timestamp) : Z :=
  match encounter_date, discharge_date with
  | Some e, Some d => let n := days (d - e) in if decide (n < 0) then 0 else n
  | _, _ => 0
  end.

Definition encounters_dated (df_encounters : list BEncounter.t)
    : list (BEncounter.t * option Timestamp * option Timestamp) :=
  zip (zip df_encounters
         (to_datetime (BEncounter.encounter_date <$> df_encounters)))
      (to_datetime (BEncounter.discharge_date <$> df_encounters)).

Definition silver_encounter
    (ed : BEncounter.t * option Timestamp * option Timestamp) : SEncounter.t :=
  let '(e, start, stop) := ed in
  SEncounter.mk (BEncounter.encounter_id e) (BEncounter.patient_id e)
    (BEncounter.provider_id e) (BEncounter.payer_id e) start stop
    (Some (str_upper (default DEFAULT_STRING (BEncounter.encounter_type e))))
    (length_of_stay start stop)
    (to_numeric_fillna (BEncounter.total_claim_cost e))
    (to_numeric_fillna (BEncounter.payer_coverage e)).

Definition _transform_encounters (df_encounters : list BEncounter.t)
    : list SEncounter.t :=
  if decide (df_encounters = []) then []
  else
    silver_encounter <$>
      filter (λ '(e, start, _),
        is_Some (BEncounter.encounter_id e) ∧ is_Some (BEncounter.patient_id e)
        ∧ is_Some start) (encounters_dated df_encounters).

Definition _transform_payers (df_payers : list BPayer.t) : list SPayer.t :=
  if decide (df_payers = []) then []
  else
    (λ p, SPayer.mk (BPayer.payer_id p) (BPayer.payer_name p)) <$>
      dropna [BPayer.payer_id; BPayer.payer_name] df_payers.

End Transforms.

(** * Candidate frames and schema contracts *)

(** A cell of a candidate frame: null (None, NaN or NaT), or a value of one
    of the four column types the schemas declare. A float cell holds the
    rational its float64 value denotes. *)
Inductive value :=
  | VNull
  | VStr (s : string)
  | VInt (n : Z)
  | VFloat (q : Q)
  | VDate (t : Timestamp).

(** A row maps column names to cells; a frame is the list of its rows. *)
Abbreviation row := (gmap string value).
Abbreviation frame := (list (gmap string value)).

Inductive dtype := DStr | DInt | DFloat | DDateTime.

Inductive check :=
  | Ge (bound : Q)
  | Le (bound : Q)
  | IsIn (allowed : list string).

(** One [pa.Field] of a [DataFrameModel]; [nullable], [unique] and [coerce]
    default to false in pandera. *)
Record Field := field {
  fname : string;
  ftype : dtype;
  nullable : bool;
  unique : bool;
  coerce : bool;
  checks : list check }.

Definition SilverPatientSchema : list Field := [
  field "patient_id" DStr false true false [];
  field "first_name" DStr false false false [];
  field "last_name" DStr false false false [];
  field "date_of_birth" DDateTime false false false [];
  field "gender" DStr false false false [IsIn ["Male"; "Female"; "Other"; "Unknown"]];
  field "age" DInt false false true [Ge 0; Le 120];
  field "payer_id" DStr true false false [];
  field "payer_name" DStr false false false [];
  field "silver_processing_timestamp" DDateTime false false true [] ].

Definition SilverClaimsSchema : list Field := [
  field "claim_id" DStr false true false [];
  field "patient_id" DStr false false false [];
  field "provider_id" DStr true false false [];
  field "claim_start_date" DDateTime false false true [];
  field "claim_end_date" DDateTime true false true [];
  field "total_billed_amount" DFloat false false true [Ge 0];
  field "total_paid_amount" DFloat false false true [Ge 0];
  field "patient_responsibility_amount" DFloat false false true [Ge 0];
  field "silver_processing_timestamp" DDateTime false false true [] ].

Definition SilverClaimsTransactionsSchema : list Field := [
  field "transaction_id" DStr false true false [];
  field "claim_id" DStr false false false [];
  field "transaction_date" DDateTime false false true [];
  field "transaction_amount" DFloat false false true [];
  field "procedure_code" DStr true false false [];
  field "transaction_type" DStr true false false [];
  field "silver_processing_timestamp" DDateTime false false true [] ].

Definition SilverEncountersSchema : list Field := [
  field "encounter_id" DStr false true false [];
  field "patient_id" DStr false false false [];
  field "provider_id" DStr true false false [];
  field "payer_id" DStr true false false [];
  field "encounter_date" DDateTime false false true [];
  field "discharge_date" DDateTime true false true [];
  field "encounter_type" DStr true false false [];
  field "length_of_stay_days" DInt false false true [Ge 0];
  field "total_claim_cost" DFloat false false true [Ge 0];
  field "payer_coverage" DFloat false false true [Ge 0];
  field "silver_processing_timestamp" DDateTime false false true [] ].

Definition SilverPayersSchema : list Field := [
  field "payer_id" DStr false true false [];
  field "payer_name" DStr false false false [];
  field "silver_processing_timestamp" DDateTime false false true [] ].

(** ** The candidate rows as frame rows *)

Definition str_value (c : cell) : value := from_option VStr VNull c.
Definition date_value (d : option Timestamp) : value := from_option VDate VNull d.

Definition patient_row (p : SPatient.t) : gmap string value :=
  list_to_map [
    ("patient_id", str_value (SPatient.patient_id p));
    ("first_name", str_value (SPatient.first_name p));
    ("last_name", str_value (SPatient.last_name p));
    ("date_of_birth", date_value (SPatient.date_of_birth p));
    ("gender", str_value (SPatient.gender p));
    ("age", VInt (SPatient.age p));
    ("payer_id", str_value (SPatient.payer_id p));
    ("payer_name", str_value (SPatient.payer_name p)) ].

Definition claim_row (c : SClaim.t) : gmap string value :=
  list_to_map [
    ("claim_id", str_value (SClaim.claim_id c));
    ("patient_id", str_value (SClaim.patient_id c));
    ("provider_id", str_value (SClaim.provider_id c));
    ("claim_start_date", date_value (SClaim.claim_start_date c));
    ("claim_end_date", date_value (SClaim.claim_end_date c));
    ("total_billed_amount", VFloat (SClaim.total_billed_amount c));
    ("total_paid_amount", VFloat (SClaim.total_paid_amount c));
    ("patient_responsibility_amount",
       VFloat (SClaim.patient_responsibility_amount c)) ].

Definition transaction_row (t : STransaction.t) : gmap string value :=
  list_to_map [
    ("transaction_id", str_value (STransaction.transaction_id t));
    ("claim_id", str_value (STransaction.claim_id t));
    ("transaction_date", date_value (STransaction.transaction_date t));
    ("transaction_amount", VFloat (STransaction.transaction_amount t));
    ("procedure_code", str_value (STransaction.procedure_code t));
    ("transaction_type", str_value (STransaction.transaction_type t)) ].

Definition encounter_row (e : SEncounter.t) : gmap string value :=
  list_to_map [
    ("encounter_id", str_value (SEncounter.encounter_id e));
    ("patient_id", str_value (SEncounter.patient_id e));
    ("provider_id", str_value (SEncounter.provider_id e));
    ("payer_id", str_value (SEncounter.payer_id e));
    ("encounter_date", date_value (SEncounter.encounter_date e));
    ("discharge_date", date_value (SEncounter.discharge_date e));
    ("encounter_type", str_value (SEncounter.encounter_type e));
    ("length_of_stay_days", VInt (SEncounter.length_of_stay_days e));
    ("total_claim_cost", VFloat (SEncounter.total_claim_cost e));
    ("payer_coverage", VFloat (SEncounter.payer_coverage e)) ].

Definition payer_row (p : SPayer.t) : gmap string value :=
  list_to_map [
    ("payer_id", str_value (SPayer.payer_id p));
    ("payer_name", str_value (SPayer.payer_name p)) ].

(** * Validation *)

#[global] Instance Qle_decision (x y : Q) : Decision (x <= y)%Q.
Proof. unfold Qle. apply _. Defined.

#[global] Instance Qeq_decision (x y : Q) : Decision (x == y)%Q.
Proof. unfold Qeq. apply _. Defined.

Definition has_type (t : dtype) (v : value) : Prop :=
  match t, v with
  | DStr, VStr _ | DInt, VInt _ | DFloat, VFloat _ | DDateTime, VDate _ => True
  | _, _ => False
  end.

#[global] Instance has_type_dec t v : Decision (has_type t v).
Proof. destruct t, v; simpl; apply _. Defined.

(** The number a numeric cell holds. *)
Definition number (v : value) : option Q :=
  match v with
  | VInt n => Some (inject_Z n)
  | VFloat q => Some q
  | _ => None
  end.

Definition check_holds (c : check) (v : value) : Prop :=
  match c with
  | Ge bound => from_option (λ q, bound <= q)%Q False (number v)
  | Le bound => from_option (λ q, q <= bound)%Q False (number v)
  | IsIn allowed => from_option (λ s, s ∈ allowed) False
                      (match v with VStr s => Some s | _ => None end)
  end.

#[global] Instance check_holds_dec c v : Decision (check_holds c v).
Proof. destruct c; simpl; [destruct (number v)..|destruct v]; simpl; apply _. Defined.

(** Two cells hold the same value, as [duplicated] sees them: nulls are
    equal to each other and floats are compared as numbers. *)
Definition same_value (v w : value) : Prop :=
  match v, w with
  | VFloat p, VFloat q => (p == q)%Q
  | VNull, VNull => True
  | VStr s, VStr s' => s = s'
  | VInt n, VInt n' => n = n'
  | VDate t, VDate t' => t = t'
  | _, _ => False
  end.

#[global] Instance same_value_dec v w : Decision (same_value v w).
Proof. destruct v, w; simpl; apply _. Defined.

Inductive reason :=
  | ColumnMissing
  | WrongType (expected : dtype)
  | NotNullable
  | NotUnique
  | CheckFailed (c : check).

(** One line of the failure report: the field, the row, what failed and the
    offending cell. *)
Record violation := Violation {
  v_field : string;
  v_row : nat;
  v_reason : reason;
  failure_case : value }.

(** Coercion to the declared type. The candidate tables of this pipeline
    need one coercion only, of an integer column to float; any other cell
    is left as it is, and the type check reports it when it does not fit. *)
Definition coerce_value (t : dtype) (v : value) : value :=
  match t, v with
  | DFloat, VInt n => VFloat (inject_Z n)
  | _, _ => v
  end.

Definition coerce_row (schema : list Field) (r : gmap string value) : gmap string value :=
  foldr (λ f r, if coerce f then alter (coerce_value (ftype f)) (fname f) r else r)
        r schema.

Definition coerce_frame (schema : list Field) (df : frame) : frame :=
  coerce_row schema <$> df.

(** What is wrong with one non-missing cell on its own. *)
Definition cell_violations (f : Field) (v : value) : list reason :=
  match v with
  | VNull => if nullable f then [] else [NotNullable]
  | _ => (if decide (has_type (ftype f) v) then [] else [WrongType (ftype f)])
         ++ (CheckFailed <$> filter (λ c, ¬ check_holds c v) (checks f))
  end.

(** Row [i] holds [v] in a column where another row holds the same value. *)
Definition duplicated (col : list (option value)) (i : nat) (v : value) : Prop :=
  Exists (λ '(j, c), j ≠ i ∧ from_option (same_value v) False c) (imap pair col).

#[global] Instance duplicated_dec col i v : Decision (duplicated col i v).
Proof.
  unfold duplicated. apply Exists_dec. intros [j c]. apply and_dec; [apply _|].
  destruct c; simpl; apply _.
Defined.

Definition violations_at (f : Field) (col : list (option value)) (i : nat)
    (c : option value) : list reason :=
  match c with
  | None => [ColumnMissing]
  | Some v =>
      cell_violations f v
      ++ (if decide (unique f = true ∧ duplicated col i v) then [NotUnique] else [])
  end.

Definition field_violations (f : Field) (df : frame) : list violation :=
  let col := (λ r : gmap string value, r !! fname f) <$> df in
  mjoin (imap (λ i c, (λ rs, Violation (fname f) i rs (default VNull c))
                        <$> violations_at f col i c) col).

Definition violations (schema : list Field) (df : frame) : list violation :=
  schema ≫= λ f, field_violations f df.

Inductive validation :=
  | Validated (df : frame)
  | SchemaErrors (failure_cases : list violation).

(** Modelled from the spec: [schema.validate(df, lazy=True)] is pandera's,
    not this repository's. Each field is coerced where the schema allows it,
    then every field is checked on every row (presence, type, nulls, range
    and enum checks on the non-null cells, uniqueness), and all failures are
    gathered into one report before anything is raised. *)
Definition validate (schema : list Field) (df : frame) : validation :=
  let df' := coerce_frame schema df in
  match violations schema df' with
  | [] => Validated df'
  | errs => SchemaErrors errs
  end.

(** * The loader and the orchestrator *)

(** The relational store behind [self.engine]. A Bronze table that cannot be
    read is [None]. The two predicates say on which table loads the schema
    creation and the table write raise. *)
Record Engine := {
  bronze_patients : option (list BPatient.t);
  bronze_claims : option (list BClaim.t);
  bronze_claims_transactions : option (list BTransaction.t);
  bronze_encounters : option (list BEncounter.t);
  bronze_payers : option (list BPayer.t);
  create_schema_raises : string → bool;
  to_sql_raises : string → bool;
  silver : gmap string (list (gmap string value)) }.

Definition replace_table (e : Engine) (table_name : string) (df : frame) : Engine :=
  {| bronze_patients := bronze_patients e;
     bronze_claims := bronze_claims e;
     bronze_claims_transactions := bronze_claims_transactions e;
     bronze_encounters := bronze_encounters e;
     bronze_payers := bronze_payers e;
     create_schema_raises := create_schema_raises e;
     to_sql_raises := to_sql_raises e;
     silver := <[table_name := df]> (silver e) |}.

Record Stats := {
  loaded_tables : nat;
  total_records : nat;
  failed_tables : list string }.

(** What [_load_to_silver] writes to the log for a table. *)
Inductive log_entry :=
  | WarningEmpty (table_name : string)
  | InfoLoaded (table_name : string) (records : nat)
  | ErrorValidation (table_name : string) (head : list violation)
  | ErrorUnexpected (table_name : string).

Record SilverLayer := {
  engine : Engine;
  processing_timestamp : Timestamp;
  stats : Stats;
  log : list log_entry }.

Definition record_failure (self : SilverLayer) (entry : log_entry)
    (failed : string) : SilverLayer :=
  {| engine := engine self;
     processing_timestamp := processing_timestamp self;
     stats := {| loaded_tables := loaded_tables (stats self);
                 total_records := total_records (stats self);
                 failed_tables := failed_tables (stats self) ++ [failed] |};
     log := log self ++ [entry] |}.

Definition record_load (self : SilverLayer) (table_name : string)
    (df_validated : frame) : SilverLayer :=
  {| engine := replace_table (engine self) table_name df_validated;
     processing_timestamp := processing_timestamp self;
     stats := {| loaded_tables := S (loaded_tables (stats self));
                 total_records := (total_records (stats self) + length df_validated)%nat;
                 failed_tables := failed_tables (stats self) |};
     log := log self ++ [InfoLoaded table_name (length df_validated)] |}.

(** [df['silver_processing_timestamp'] = self.processing_timestamp] *)
Definition stamp (ts : Timestamp) (df : frame) : frame :=
  <["silver_processing_timestamp" := VDate ts]> <$> df.

Definition _load_to_silver (self : SilverLayer) (df : frame)
    (table_name : string) (schema : list Field) : SilverLayer :=
  if decide (df = []) then
    record_failure self (WarningEmpty table_name) table_name
  else
    let df := stamp (processing_timestamp self) df in
    if create_schema_raises (engine self) table_name then
      record_failure self (ErrorUnexpected table_name) table_name
    else
      match validate schema df with
      | Validated df_validated =>
          if to_sql_raises (engine self) table_name then
            record_failure self (ErrorUnexpected table_name) table_name
          else record_load self table_name df_validated
      | SchemaErrors failure_cases =>
          record_failure self
            (ErrorValidation table_name (take 5 failure_cases))
            (table_name +:+ " (Schema Validation)")
      end.

(** [_extract_from_bronze]: a failed read is logged and gives an empty frame. *)
Definition _extract_from_bronze {A} (read_sql : option (list A)) : list A :=
  default [] read_sql.

Section Orchestrator.
Context `{Pandas}.

Definition load_silver (self : SilverLayer) : SilverLayer :=
  let patients := _extract_from_bronze (bronze_patients (engine self)) in
  let claims := _extract_from_bronze (bronze_claims (engine self)) in
  let claims_transactions :=
    _extract_from_bronze (bronze_claims_transactions (engine self)) in
  let encounters := _extract_from_bronze (bronze_encounters (engine self)) in
  let payers := _extract_from_bronze (bronze_payers (engine self)) in
  let ts := processing_timestamp self in
  let silver_patients := _transform_patients ts patients encounters payers in
  let self := _load_to_silver self (patient_row <$> silver_patients)
                "silver_patients_dim" SilverPatientSchema in
  let silver_claims := _transform_claims claims claims_transactions in
  let self := _load_to_silver self (claim_row <$> silver_claims)
                "silver_claims_fact" SilverClaimsSchema in
  let silver_transactions := _transform_claims_transactions claims_transactions in
  let self := _load_to_silver self (transaction_row <$> silver_transactions)
                "silver_claims_transactions_fact" SilverClaimsTransactionsSchema in
  let silver_encounters := _transform_encounters encounters in
  let self := _load_to_silver self (encounter_row <$> silver_encounters)
                "silver_encounters_fact" SilverEncountersSchema in
  let silver_payers := _transform_payers payers in
  _load_to_silver self (payer_row <$> silver_payers)
    "silver_payers_dim" SilverPayersSchema.

(** [SilverLayer.__init__]: [_get_db_engine] re-raises what the engine
    creation raises; otherwise the timestamp is taken once and the
    statistics start empty. *)
Definition init (create_engine : option Engine) (now : Timestamp)
    : option SilverLayer :=
  e ← create_engine;
  Some {| engine := e; processing_timestamp := now;
          stats := {| loaded_tables := 0; total_records := 0; failed_tables := [] |};
          log := [] |}.

(** The main block: [None] is the fatal error logged when the
    initialisation raises; otherwise the state the run ends in. *)
Definition main (create_engine : option Engine) (now : Timestamp)
    : option SilverLayer :=
  load_silver <$> init create_engine now.

End Orchestrator.

(** * What the specification says, in its own terms *)

(** The age as the specification words it: the floor of days / 365.25. *)
Definition floor_age (d : Z) : Z := (4 * d) `div` 1461.

(** Field [f] is violated at row [i] of [df] for the given reason. *)
Inductive violates (f : Field) (df : frame) (i : nat) : reason → Prop :=
  | violates_missing r :
      df !! i = Some r → r !! fname f = None →
      violates f df i ColumnMissing
  | violates_null r :
      df !! i = Some r → r !! fname f = Some VNull → nullable f = false →
      violates f df i NotNullable
  | violates_type r v :
      df !! i = Some r → r !! fname f = Some v → v ≠ VNull →
      ¬ has_type (ftype f) v →
      violates f df i (WrongType (ftype f))
  | violates_check r v c :
      df !! i = Some r → r !! fname f = Some v → v ≠ VNull →
      c ∈ checks f → ¬ check_holds c v →
      violates f df i (CheckFailed c)
  | violates_unique r v j r' v' :
      unique f = true → j ≠ i →
      df !! i = Some r → r !! fname f = Some v →
      df !! j = Some r' → r' !! fname f = Some v' → same_value v v' →
      violates f df i NotUnique.

(** Every declared constraint of the schema holds on the frame. *)
Definition satisfies (schema : list Field) (df : frame) : Prop :=
  ∀ f i r, f ∈ schema → df !! i = Some r →
    ∃ v, r !! fname f = Some v
      ∧ (v ≠ VNull → has_type (ftype f) v)
      ∧ (nullable f = false → v ≠ VNull)
      ∧ (∀ c, c ∈ checks f → v ≠ VNull → check_holds c v)
      ∧ (unique f = true → ∀ j r' v', j ≠ i → df !! j = Some r' →
           r' !! fname f = Some v' → ¬ same_value v v').

(** How the load of one table ends. *)
Inductive load_outcome :=
  | Loaded (df_validated : frame)
  | EmptyFrame
  | Rejected (failure_cases : list violation)
  | Unexpected.

(** The outcome of a table, from its own candidate frame and the store's
    behaviour on that table alone. *)
Definition attempt (e : Engine) (ts : Timestamp) (df : frame)
    (table_name : string) (schema : list Field) : load_outcome :=
  if decide (df = []) then EmptyFrame
  else if create_schema_raises e table_name then Unexpected
  else match validate schema (stamp ts df) with
       | SchemaErrors errs => Rejected errs
       | Validated dfv => if to_sql_raises e table_name then Unexpected else Loaded dfv
       end.

Definition outcome_entry (table_name : string) (o : load_outcome) : log_entry :=
  match o with
  | Loaded dfv => InfoLoaded table_name (length dfv)
  | EmptyFrame => WarningEmpty table_name
  | Rejected errs => ErrorValidation table_name (take 5 errs)
  | Unexpected => ErrorUnexpected table_name
  end.

(** What a table adds to the list of failed tables. *)
Definition outcome_failed (table_name : string) (o : load_outcome) : list string :=
  match o with
  | Loaded _ => []
  | Rejected _ => [table_name +:+ " (Schema Validation)"]
  | EmptyFrame | Unexpected => [table_name]
  end.

Definition outcome_loaded (o : load_outcome) : nat :=
  match o with Loaded _ => 1 | _ => 0 end.

Section Candidates.
Context `{Pandas}.

(** The rows that pass the required-field drop of the patient transform. *)
Definition required_patients (df_patients : list BPatient.t) : list BPatient.t :=
  dropna [BPatient.patient_id; BPatient.date_of_birth;
          BPatient.first_name; BPatient.last_name] df_patients.

(** What [patients_base] makes of one surviving row and its parsed date. *)
Definition base_of (ts : Timestamp) (p : BPatient.t) (d : option Timestamp)
    (r : SPatient.t) : Prop :=
  ∃ t, d = Some t
    ∧ r = SPatient.mk (BPatient.patient_id p)
            (str_title <$> BPatient.first_name p)
            (str_title <$> BPatient.last_name p)
            (Some t) (normalize_gender (BPatient.gender p))
            (age_of_days (days (ts - t))) None None.

(** The payer enrichment leaves the first six columns of a row alone. *)
Definition same_person (r r' : SPatient.t) : Prop :=
  SPatient.patient_id r' = SPatient.patient_id r
  ∧ SPatient.first_name r' = SPatient.first_name r
  ∧ SPatient.last_name r' = SPatient.last_name r
  ∧ SPatient.date_of_birth r' = SPatient.date_of_birth r
  ∧ SPatient.gender r' = SPatient.gender r
  ∧ SPatient.age r' = SPatient.age r.



(** The encounters as [patient_payer_map] sees them, before the sort. *)
Definition dated_encounters (df_encounters : list BEncounter.t) : list PayerMap.t :=
  zip_with
    (λ e d, PayerMap.mk (BEncounter.patient_id e) (BEncounter.payer_id e) d)
    df_encounters (to_datetime (BEncounter.encounter_date <$> df_encounters)).

(** The five candidate tables of a run, with the name and the schema each
    is loaded under, in the order [load_silver] takes them. *)
Definition candidates (e : Engine) (ts : Timestamp)
    : list (frame * string * list Field) :=
  let patients := _extract_from_bronze (bronze_patients e) in
  let claims := _extract_from_bronze (bronze_claims e) in
  let claims_transactions := _extract_from_bronze (bronze_claims_transactions e) in
  let encounters := _extract_from_bronze (bronze_encounters e) in
  let payers := _extract_from_bronze (bronze_payers e) in
  [ (patient_row <$> _transform_patients ts patients encounters payers,
     "silver_patients_dim", SilverPatientSchema);
    (claim_row <$> _transform_claims claims claims_transactions,
     "silver_claims_fact", SilverClaimsSchema);
    (transaction_row <$> _transform_claims_transactions claims_transactions,
     "silver_claims_transactions_fact", SilverClaimsTransactionsSchema);
    (encounter_row <$> _transform_encounters encounters,
     "silver_encounters_fact", SilverEncountersSchema);
    (payer_row <$> _transform_payers payers,
     "silver_payers_dim", SilverPayersSchema) ].

End Candidates.

(** The row of the coerced, stamped frame that a candidate row becomes. *)
Definition loaded_row {R : Type} (to_row : R → gmap string value)
    (schema : list Field) (ts : Timestamp) (r : R) : gmap string value :=
  coerce_row schema (<["silver_processing_timestamp" := VDate ts]> (to_row r)).

(** A cell that a field accepts on its own: present, null only where the
    field is nullable, and otherwise of the declared type and passing the
    field's checks. *)
Definition cell_ok (f : Field) (c : option value) : Prop :=
  ∃ v, c = Some v
    ∧ (v = VNull → nullable f = true)
    ∧ (v ≠ VNull →
         has_type (ftype f) v ∧ ∀ c, c ∈ checks f → check_holds c v).

(** * The run summary *)

(** The lines [_summarize_run] logs, the rules and the title apart. *)
Inductive summary_line :=
  | SummaryLoaded (tables : nat)
  | SummaryRecords (records : nat)
  | SummaryFailed (names : string)
  | SummaryAllSucceeded.

(** [', '.join(names)] *)
Fixpoint join_comma (names : list string) : string :=
  match names with
  | [] => ""
  | name :: rest =>
      match rest with
      | [] => name
      | _ => name +:+ ", " +:+ join_comma rest
      end
  end.

Definition _summarize_run (self : SilverLayer) : list summary_line :=
  [ SummaryLoaded (loaded_tables (stats self));
    SummaryRecords (total_records (stats self));
    if decide (failed_tables (stats self) = []) then SummaryAllSucceeded
    else SummaryFailed (join_comma (failed_tables (stats self))) ].

(** What one log entry of [_load_to_silver] reports as loaded: the records
    of the table, and the table itself counted. *)
Definition records_logged (entry : log_entry) : nat :=
  match entry with InfoLoaded _ records => records | _ => 0%nat end.

Definition loads_logged (entry : log_entry) : nat :=
  match entry with InfoLoaded _ _ => 1%nat | _ => 0%nat end.

(** * A concrete reading of the library interface

    ISO calendar dates ([YYYY-MM-DD]) at midnight, plain decimal numbers,
    ASCII case mapping and a merge sort. The examples below run on it; the
    general results hold for any instance of [Pandas]. *)

Module Iso.

Definition digit (c : ascii) : option Z :=
  let n := Z.of_N (Ascii.N_of_ascii c) in
  if decide (48 ≤ n ≤ 57) then Some (n - 48) else None.

(** The number a non-empty string of decimal digits denotes. *)
Definition digits (cs : list ascii) : option Z :=
  match cs with
  | [] => None
  | _ => foldl (λ acc c, n ← acc; d ← digit c; Some (10 * n + d)) (Some 0) cs
  end.

Definition is_leap (y : Z) : bool :=
  bool_decide (y `mod` 4 = 0 ∧ (y `mod` 100 ≠ 0 ∨ y `mod` 400 = 0)).

Definition days_in_month (y m : Z) : Z :=
  if decide (m = 2) then (if is_leap y then 29 else 28)
  else if decide (m ∈ [4; 6; 9; 11]) then 30 else 31.

(** Days from 1970-01-01 to a date of the proleptic Gregorian calendar. *)
Definition days_from_civil (y m d : Z) : Z :=
  let y' := if decide (m ≤ 2) then y - 1 else y in
  let era := y' `div` 400 in
  let yoe := y' - era * 400 in
  let mp := (m + 9) `mod` 12 in
  let doy := (153 * mp + 2) `div` 5 + d - 1 in
  let doe := yoe * 365 + yoe `div` 4 - yoe `div` 100 + doy in
  era * 146097 + doe - 719468.

Definition parse_date (s : string) : option Timestamp :=
  match String.list_ascii_of_string s with
  | [y1; y2; y3; y4; s1; m1; m2; s2; d1; d2] =>
      if decide (s1 = "-"%char ∧ s2 = "-"%char) then
        y ← digits [y1; y2; y3; y4];
        m ← digits [m1; m2];
        d ← digits [d1; d2];
        if decide (1 ≤ m ≤ 12 ∧ 1 ≤ d ≤ days_in_month y m)
        then Some (days_from_civil y m d * NS_PER_DAY) else None
      else None
  | _ => None
  end.

Definition parse_unsigned (cs : list ascii) : option Q :=
  match list_find (λ c, c = "."%char) cs with
  | None => n ← digits cs; Some (inject_Z n)
  | Some (i, _) =>
      let frac := drop (S i) cs in
      n ← digits (take i cs ++ frac);
      if decide (frac = []) then None
      else Some (Qmake n (Z.to_pos (10 ^ Z.of_nat (length frac))))
  end.

Definition parse_number (s : string) : option Q :=
  match String.list_ascii_of_string s with
  | c :: cs =>
      if decide (c = "-"%char) then Qopp <$> parse_unsigned cs
      else parse_unsigned (c :: cs)
  | [] => None
  end.

Definition is_lower (c : ascii) : bool :=
  bool_decide (97 ≤ Z.of_N (Ascii.N_of_ascii c) ≤ 122).
Definition is_upper (c : ascii) : bool :=
  bool_decide (65 ≤ Z.of_N (Ascii.N_of_ascii c) ≤ 90).

Definition to_upper (c : ascii) : ascii :=
  if is_lower c then Ascii.ascii_of_N (Ascii.N_of_ascii c - 32) else c.
Definition to_lower (c : ascii) : ascii :=
  if is_upper c then Ascii.ascii_of_N (Ascii.N_of_ascii c + 32) else c.

Definition upper (s : string) : string :=
  String.string_of_list_ascii (to_upper <$> String.list_ascii_of_string s).

Fixpoint title_from (in_word : bool) (cs : list ascii) : list ascii :=
  match cs with
  | [] => []
  | c :: cs' =>
      (if in_word then to_lower c else to_upper c)
        :: title_from (is_lower c || is_upper c) cs'
  end.

Definition title (s : string) : string :=
  String.string_of_list_ascii (title_from false (String.list_ascii_of_string s)).

#[global] Instance NaT_last_le_dec x y : Decision (NaT_last_le x y).
Proof. destruct x, y; simpl; apply _. Defined.

Definition by_date {A} (key : A → option Timestamp) : relation A :=
  λ a b, NaT_last_le (key a) (key b).

Definition sort {A} (key : A → option Timestamp) (df : list A) : list A :=
  merge_sort (by_date key) df.

#[global] Instance by_date_trans {A} (key : A → option Timestamp) :
  Transitive (by_date key).
Proof.
  intros a b c. unfold by_date.
  destruct (key a), (key b), (key c); simpl; try tauto; lia.
Qed.

#[global] Instance by_date_total {A} (key : A → option Timestamp) :
  Total (by_date key).
Proof.
  intros a b. unfold by_date.
  destruct (key a), (key b); simpl; try tauto; lia.
Qed.

(** The sum of the cells from left to right, without rounding: what the
    float64 sum gives when every partial sum is a float64 number. *)
Definition exact_sum (cells : list Q) : Q :=
  match cells with
  | [] => 0%Q
  | x :: cells' => foldl Qplus x cells'
  end.

#[local, refine] Instance pandas : Pandas := {|
  to_datetime := fmap (λ c : cell, c ≫= parse_date);
  to_numeric := parse_number;
  group_sum := exact_sum;
  str_title := title;
  str_upper := upper;
  sort_values := @sort |}.
Proof.
  - intros col. apply length_fmap.
  - done.
  - intros A key df. apply merge_sort_Permutation.
  - intros A key df. apply (StronglySorted_merge_sort (by_date key)).
Defined.

End Iso.

Example parse_date_epoch : Iso.parse_date "1970-01-01" = Some 0.
Proof. reflexivity. Qed.

Example parse_date_2024 :
  Iso.parse_date "2024-02-29" = Some (19782 * NS_PER_DAY)
  ∧ Iso.parse_date "2023-02-29" = None ∧ Iso.parse_date "01/02/2024" = None.
Proof. vm_compute. done. Qed.

Example parse_number_examples :
  Iso.parse_number "12.50" = Some (1250 # 100)%Q
  ∧ Iso.parse_number "-3" = Some (-3 # 1)%Q ∧ Iso.parse_number "n/a" = None.
Proof. vm_compute. done. Qed.

Example title_upper_examples :
  Iso.title "mary-ann o'NEIL" = "Mary-Ann O'Neil" ∧ Iso.upper "wellness" = "WELLNESS".
Proof. vm_compute. done. Qed.

(** * Properties *)

(** ** Frames: merges, drops and zips *)

Section FrameFacts.
Context {A B C : Type}.

Lemma elem_of_merge_left (kl : A → cell) (kr : B → cell) (mk : A → option B → C)
    (left : list A) (right : list B) (c : C) :
  c ∈ merge_left kl kr mk left right ↔
  ∃ a, a ∈ left ∧
    ((c = mk a None ∧ ∀ b, b ∈ right → kr b ≠ kl a)
     ∨ ∃ b, c = mk a (Some b) ∧ b ∈ right ∧ kr b = kl a).
Proof.
  unfold merge_left. rewrite list_elem_of_bind. split.
  - intros (a & Hc & Ha). exists a. split; [done|].
    destruct (filter _ right) as [|b0 bs] eqn:Hf.
    + left. apply list_elem_of_singleton in Hc. split; [done|].
      intros b Hb Hk. assert (b ∈ filter (λ b, kr b = kl a) right) as Hin
        by (apply list_elem_of_filter; done).
      rewrite Hf in Hin. by apply not_elem_of_nil in Hin.
    + right. apply list_elem_of_fmap in Hc as (b & -> & Hb).
      rewrite <- Hf in Hb. apply list_elem_of_filter in Hb as [Hk Hb]. eauto.
  - intros (a & Ha & [[-> Hno] | (b & -> & Hb & Hk)]); exists a; (split; [|done]).
    + destruct (filter _ right) as [|b0 bs] eqn:Hf; [apply list_elem_of_here|].
      assert (b0 ∈ filter (λ b, kr b = kl a) right) as Hin
        by (rewrite Hf; apply list_elem_of_here).
      apply list_elem_of_filter in Hin as [Hk Hb0]. by destruct (Hno b0).
    + assert (b ∈ filter (λ b, kr b = kl a) right) as Hin
        by (apply list_elem_of_filter; done).
      destruct (filter _ right) as [|b0 bs] eqn:Hf;
        [by apply not_elem_of_nil in Hin|].
      apply list_elem_of_fmap. eauto.
Qed.

(** A left merge loses no left row. *)
Lemma merge_left_covers (kl : A → cell) (kr : B → cell) (mk : A → option B → C)
    (left : list A) (right : list B) (a : A) :
  a ∈ left → ∃ ob, mk a ob ∈ merge_left kl kr mk left right.
Proof.
  intros Ha. destruct (filter (λ b, kr b = kl a) right) as [|b0 bs] eqn:Hf.
  - exists None. apply elem_of_merge_left. exists a. split; [done|]. left.
    split; [done|]. intros b Hb Hk.
    assert (b ∈ filter (λ b, kr b = kl a) right) as Hin
      by (apply list_elem_of_filter; done).
    rewrite Hf in Hin. by apply not_elem_of_nil in Hin.
  - exists (Some b0). apply elem_of_merge_left. exists a. split; [done|]. right.
    assert (b0 ∈ filter (λ b, kr b = kl a) right) as Hin
      by (rewrite Hf; apply list_elem_of_here).
    apply list_elem_of_filter in Hin as [Hk Hb0]. eauto.
Qed.

End FrameFacts.

Lemma elem_of_dropna {A} (subset : list (A → cell)) (df : list A) (r : A) :
  r ∈ dropna subset df ↔ r ∈ df ∧ ∀ col, col ∈ subset → is_Some (col r).
Proof.
  unfold dropna. rewrite list_elem_of_filter, Forall_forall. tauto.
Qed.

(** ** The age column *)

Lemma astype_int_age_inr ts dob ages :
  astype_int_age ts dob = inr ages →
  Forall2 (λ d a, ∃ t, d = Some t ∧ a = age_of_days (days (ts - t))) dob ages.
Proof.
  revert ages. induction dob as [|[t|] dob IH]; intros ages Hages; simpl in Hages.
  - injection Hages as <-. constructor.
  - destruct (astype_int_age ts dob) as [e|ages'] eqn:E; [discriminate|].
    injection Hages as <-. constructor; eauto.
  - discriminate.
Qed.

Lemma astype_int_age_NaT ts dob :
  None ∈ dob → astype_int_age ts dob = inl IntCastingNaNError.
Proof.
  induction dob as [|[t|] dob IH]; intros Hin; simpl.
  - by apply not_elem_of_nil in Hin.
  - apply elem_of_cons in Hin as [?|Hin]; [discriminate|]. by rewrite IH.
  - done.
Qed.

Lemma age_of_days_floor d : 0 ≤ d → age_of_days d = floor_age d.
Proof.
  intros Hd. unfold age_of_days, floor_age. apply Z.quot_div_nonneg; lia.
Qed.

Lemma days_nonneg delta : 0 ≤ delta → 0 ≤ days delta.
Proof. intros. unfold days, NS_PER_DAY. apply Z.div_pos; lia. Qed.

Section PatientFacts.
Context `{Pandas}.

Lemma patients_base_inr ts df_patients df :
  patients_base ts df_patients = inr df →
  Forall2 (λ '(p, d) r, base_of ts p d r)
    (zip (required_patients df_patients)
         (to_datetime (BPatient.date_of_birth <$> required_patients df_patients)))
    df.
Proof.
  unfold patients_base. fold (required_patients df_patients).
  set (rows := required_patients df_patients).
  set (dob := to_datetime (BPatient.date_of_birth <$> rows)).
  destruct (astype_int_age ts dob) as [e|ages] eqn:E; [discriminate|].
  intros [= <-]. apply astype_int_age_inr in E.
  assert (length rows = length dob) as Hlen
    by (unfold dob; rewrite to_datetime_length, length_fmap; done).
  clearbody dob rows. revert dob ages Hlen E.
  induction rows as [|p rows IH]; intros [|d dob] ages Hlen E; simplify_eq/=.
  - apply Forall2_nil_inv_l in E as ->. constructor.
  - apply Forall2_cons_inv_l in E as (a & ages' & (t & -> & ->) & E & ->).
    simpl. constructor; [by exists t|]. by apply IH.
Qed.

Lemma patients_base_NaT ts df_patients :
  None ∈ to_datetime (BPatient.date_of_birth <$> required_patients df_patients) →
  patients_base ts df_patients = inl IntCastingNaNError.
Proof.
  intros Hin. unfold patients_base. fold (required_patients df_patients).
  by rewrite (astype_int_age_NaT _ _ Hin).
Qed.

Lemma transform_patients_try_rows ts df_patients df_encounters df_payers out :
  transform_patients_try ts df_patients df_encounters df_payers = inr out →
  ∃ base, patients_base ts df_patients = inr base
    ∧ (∀ r', r' ∈ out → ∃ r, r ∈ base ∧ same_person r r')
    ∧ (∀ r, r ∈ base → ∃ r', r' ∈ out ∧ same_person r r').
Proof.
  unfold transform_patients_try.
  destruct (patients_base ts df_patients) as [e|base]; [discriminate|].
  intros Hout. exists base. split; [done|].
  set (mk1 := λ (p : SPatient.t) (m : option PayerMap.t),
    let 'SPatient.mk pid fn ln dob g a _ pn := p in
    SPatient.mk pid fn ln dob g a (m ≫= PayerMap.payer_id) pn) in Hout.
  set (df1 := if decide (df_encounters = []) then base else _) in Hout.
  assert ((∀ r1, r1 ∈ df1 → ∃ r, r ∈ base ∧ same_person r r1)
        ∧ (∀ r, r ∈ base → ∃ r1, r1 ∈ df1 ∧ same_person r r1)) as [Hin1 Hcov1].
  { unfold df1. destruct (decide (df_encounters = [])).
    - split; intros r Hr; exists r; (split; [done|]); by repeat split.
    - split.
      + intros r1 Hr1. apply elem_of_merge_left in Hr1 as (r & Hr & Hc).
        exists r. split; [done|].
        destruct Hc as [[-> _]|(b & -> & _)]; destruct r; by repeat split.
      + intros r Hr.
        destruct (merge_left_covers SPatient.patient_id PayerMap.patient_id
                    mk1 base (patient_payer_map df_encounters) r Hr) as [ob Hob].
        eexists. split; [exact Hob|]. destruct r; by repeat split. }
  clearbody df1.
  assert (∀ a b c, same_person a b → same_person b c → same_person a c) as Htrans.
  { unfold same_person. intros a b c (?&?&?&?&?&?) (?&?&?&?&?&?).
    repeat split; congruence. }
  destruct (decide (df_payers = [])).
  - injection Hout as <-. split.
    + intros r' Hr'. apply list_elem_of_fmap in Hr' as (r1 & -> & Hr1).
      destruct (Hin1 r1 Hr1) as (r & Hr & Hs). exists r. split; [done|].
      eapply Htrans; [exact Hs|]. destruct r1; by repeat split.
    + intros r Hr. destruct (Hcov1 r Hr) as (r1 & Hr1 & Hs).
      eexists. split; [apply list_elem_of_fmap; eauto|].
      eapply Htrans; [exact Hs|]. destruct r1; by repeat split.
  - destruct (decide (df_encounters = [])); [discriminate|].
    injection Hout as <-. split.
    + intros r' Hr'. apply elem_of_merge_left in Hr' as (r1 & Hr1 & Hc).
      destruct (Hin1 r1 Hr1) as (r & Hr & Hs). exists r. split; [done|].
      eapply Htrans; [exact Hs|].
      destruct Hc as [[-> _]|(b & -> & _)]; destruct r1; by repeat split.
    + intros r Hr. destruct (Hcov1 r Hr) as (r1 & Hr1 & Hs).
      match goal with |- context [merge_left ?kl ?kr ?mk ?l ?rr] =>
        destruct (merge_left_covers kl kr mk l rr r1 Hr1) as [ob Hob] end.
      eexists. split; [exact Hob|].
      eapply Htrans; [exact Hs|]. destruct r1; by repeat split.
Qed.

End PatientFacts.

(** ** Age *)

(** C5, as the code has it: every row of the patient transform carries a
    parsed date of birth, and its age is the whole days from that date to
    the run's processing timestamp, divided by 365.25 and cut towards zero;
    this is the floor of the quotient whenever the date of birth is not
    after the processing timestamp. A patient born on 2000-01-01 is 24 at
    a processing timestamp of 2024-01-01. *)
Theorem patient_age_truncates :
  (∀ (P : Pandas) ts df_patients df_encounters df_payers r,
     r ∈ _transform_patients ts df_patients df_encounters df_payers →
     ∃ dob, SPatient.date_of_birth r = Some dob
       ∧ SPatient.age r = (4 * days (ts - dob)) `quot` 1461
       ∧ (dob ≤ ts → SPatient.age r = floor_age (days (ts - dob))))
  ∧ SPatient.age <$>
      @_transform_patients Iso.pandas (Iso.days_from_civil 2024 1 1 * NS_PER_DAY)
        [BPatient.mk (Some "p1") (Some "ada") (Some "king") (Some "2000-01-01") (Some "F")]
        [] []
    = [24].
Proof.
  split; [|by vm_compute].
  intros P ts df_patients df_encounters df_payers r Hr.
  unfold _transform_patients in Hr.
  destruct (decide (df_patients = [])); [by apply elem_of_nil in Hr|].
  destruct (transform_patients_try ts df_patients df_encounters df_payers)
    as [e|out] eqn:Hout; [by apply elem_of_nil in Hr|].
  apply transform_patients_try_rows in Hout as (base & Hbase & Hin & _).
  destruct (Hin r Hr) as (r0 & Hr0 & Hsame).
  apply patients_base_inr in Hbase.
  apply list_elem_of_lookup in Hr0 as [i Hi].
  destruct (Forall2_lookup_r _ _ _ _ _ Hbase Hi) as ([p d] & _ & (t & -> & ->)).
  destruct Hsame as (_ & _ & _ & Hdob & _ & Hage). simpl in *.
  exists t. rewrite Hdob, Hage. split; [done|]. split; [done|].
  intros Hle. apply age_of_days_floor, days_nonneg. lia.
Qed.

Lemma patient_age_truncates_witness :
  let ts := Iso.days_from_civil 2024 1 1 * NS_PER_DAY in
  let r := SPatient.mk (Some "p1") (Some "Ada") (Some "King")
             (Some (Iso.days_from_civil 2000 1 1 * NS_PER_DAY))
             (Some "Female") 24 None (Some DEFAULT_PAYER) in
  ∃ dob, SPatient.date_of_birth r = Some dob
    ∧ SPatient.age r = (4 * days (ts - dob)) `quot` 1461
    ∧ (dob ≤ ts → SPatient.age r = floor_age (days (ts - dob))).
Proof.
  apply (proj1 patient_age_truncates Iso.pandas
    (Iso.days_from_civil 2024 1 1 * NS_PER_DAY)
    [BPatient.mk (Some "p1") (Some "ada") (Some "king") (Some "2000-01-01") (Some "F")]
    [] []).
  vm_compute. apply list_elem_of_here.
Defined.

(** C5 as worded fails for a date of birth after the processing timestamp:
    one day ahead, the code gives age 0 where the floor is -1. *)
Lemma patient_age_not_floor_for_future_birth :
  let ts := Iso.days_from_civil 2024 1 1 * NS_PER_DAY in
  ∃ r dob,
    @_transform_patients Iso.pandas ts
      [BPatient.mk (Some "p1") (Some "ada") (Some "king") (Some "2024-01-02") (Some "F")]
      [] [] = [r]
    ∧ SPatient.date_of_birth r = Some dob
    ∧ SPatient.age r = 0
    ∧ floor_age (days (ts - dob)) = -1
    ∧ SPatient.age r ≠ floor_age (days (ts - dob)).
Proof.
  intros ts.
  exists (SPatient.mk (Some "p1") (Some "Ada") (Some "King")
            (Some (Iso.days_from_civil 2024 1 2 * NS_PER_DAY))
            (Some "Female") 0 None (Some DEFAULT_PAYER)),
         (Iso.days_from_civil 2024 1 2 * NS_PER_DAY).
  by vm_compute.
Qed.

(** ** A malformed date of birth *)

(** C10: a patient row whose four required fields are non-null passes the
    required-field drop whether or not its date of birth parses; when the
    parsed column holds a NaT the age cast raises, and the transform
    returns the empty table whatever the other rows are. With one malformed
    date next to a well-formed patient no patient comes out, while the
    well-formed patient alone does. *)
Theorem malformed_birth_date_empties_patients :
  (∀ (P : Pandas) ts df_patients df_encounters df_payers p,
     p ∈ df_patients →
     is_Some (BPatient.patient_id p) → is_Some (BPatient.date_of_birth p) →
     is_Some (BPatient.first_name p) → is_Some (BPatient.last_name p) →
     ∃ i, required_patients df_patients !! i = Some p
       ∧ (to_datetime (BPatient.date_of_birth <$> required_patients df_patients) !! i
            = Some None →
          patients_base ts df_patients = inl IntCastingNaNError
          ∧ _transform_patients ts df_patients df_encounters df_payers = []))
  ∧ (let ts := Iso.days_from_civil 2024 1 1 * NS_PER_DAY in
     let good := BPatient.mk (Some "p1") (Some "ada") (Some "king")
                   (Some "2000-01-01") (Some "F") in
     let bad := BPatient.mk (Some "p2") (Some "bob") (Some "ross")
                  (Some "first of May") (Some "M") in
     @_transform_patients Iso.pandas ts [good; bad] [] [] = []
     ∧ length (@_transform_patients Iso.pandas ts [good] [] []) = 1%nat).
Proof.
  split; [|by vm_compute].
  intros P ts df_patients df_encounters df_payers p Hp H1 H2 H3 H4.
  assert (p ∈ required_patients df_patients) as Hreq.
  { apply elem_of_dropna. split; [done|]. intros col Hcol.
    repeat (apply elem_of_cons in Hcol as [->|Hcol]; [done|]).
    by apply elem_of_nil in Hcol. }
  apply list_elem_of_lookup in Hreq as [i Hi]. exists i. split; [done|].
  intros HNaT. apply list_elem_of_lookup_2 in HNaT.
  pose proof (patients_base_NaT ts df_patients HNaT) as Hbase.
  split; [done|]. unfold _transform_patients, transform_patients_try.
  rewrite Hbase. by destruct (decide (df_patients = [])).
Qed.

Lemma malformed_birth_date_empties_patients_witness :
  let ts := Iso.days_from_civil 2024 1 1 * NS_PER_DAY in
  let good := BPatient.mk (Some "p1") (Some "ada") (Some "king")
                (Some "2000-01-01") (Some "F") in
  let bad := BPatient.mk (Some "p2") (Some "bob") (Some "ross")
               (Some "first of May") (Some "M") in
  ∃ i, @required_patients [good; bad] !! i = Some bad
    ∧ (@to_datetime Iso.pandas
         (BPatient.date_of_birth <$> required_patients [good; bad]) !! i = Some None →
       @patients_base Iso.pandas ts [good; bad] = inl IntCastingNaNError
       ∧ @_transform_patients Iso.pandas ts [good; bad] [] [] = []).
Proof.
  intros ts good bad.
  apply (proj1 malformed_birth_date_empties_patients Iso.pandas ts [good; bad] [] [] bad).
  - vm_compute. apply list_elem_of_further, list_elem_of_here.
  - vm_compute. eauto.
  - vm_compute. eauto.
  - vm_compute. eauto.
  - vm_compute. eauto.
Defined.

(** ** The validation report *)

Section ValidationFacts.
Implicit Types (f : Field) (df : frame) (v : value) (rs : reason).

Lemma duplicated_spec f df i v :
  duplicated ((λ r : gmap string value, r !! fname f) <$> df) i v ↔
  ∃ j r' v', j ≠ i ∧ df !! j = Some r' ∧ r' !! fname f = Some v' ∧ same_value v v'.
Proof.
  unfold duplicated. rewrite Exists_exists. split.
  - intros ([j c] & Hin & Hj & Hsame).
    apply elem_of_lookup_imap in Hin as (j' & c' & [= <- <-] & Hcol).
    apply list_lookup_fmap_Some in Hcol as (r' & -> & Hr').
    destruct (r' !! fname f) as [v'|] eqn:Hv'; [|done]. by exists j, r', v'.
  - intros (j & r' & v' & Hj & Hr' & Hv' & Hsame). exists (j, Some v').
    split; [|done]. apply elem_of_lookup_imap. exists j, (Some v').
    split; [done|]. apply list_lookup_fmap_Some. exists r'. by rewrite Hv'.
Qed.

Lemma elem_of_cell_violations f v rs :
  rs ∈ cell_violations f v ↔
    (v = VNull ∧ nullable f = false ∧ rs = NotNullable)
    ∨ (v ≠ VNull ∧ ¬ has_type (ftype f) v ∧ rs = WrongType (ftype f))
    ∨ (v ≠ VNull ∧ ∃ c, c ∈ checks f ∧ ¬ check_holds c v ∧ rs = CheckFailed c).
Proof.
  assert (∀ w, w ≠ VNull →
    rs ∈ ((if decide (has_type (ftype f) w) then [] else [WrongType (ftype f)])
          ++ (CheckFailed <$> filter (λ c, ¬ check_holds c w) (checks f)))%list ↔
    (¬ has_type (ftype f) w ∧ rs = WrongType (ftype f))
    ∨ (∃ c, c ∈ checks f ∧ ¬ check_holds c w ∧ rs = CheckFailed c)) as Hnn.
  { intros w _. rewrite elem_of_app, list_elem_of_fmap.
    setoid_rewrite list_elem_of_filter.
    destruct (decide (has_type (ftype f) w)).
    - rewrite elem_of_nil. naive_solver.
    - rewrite list_elem_of_singleton. naive_solver. }
  destruct v; simpl;
    [destruct (nullable f); rewrite ?elem_of_nil, ?list_elem_of_singleton;
       naive_solver
    | rewrite Hnn by done; naive_solver..].
Qed.

Lemma violations_at_spec f df i r rs :
  df !! i = Some r →
  rs ∈ violations_at f ((λ r : gmap string value, r !! fname f) <$> df) i
         (r !! fname f) ↔
  violates f df i rs.
Proof.
  intros Hi. unfold violations_at. split.
  - destruct (r !! fname f) as [v|] eqn:Hv.
    + rewrite elem_of_app, elem_of_cell_violations. intros [Hcell|Hdup].
      * destruct Hcell as [(-> & ? & ->)|[(? & ? & ->)|(? & c & ? & ? & ->)]].
        -- by eapply violates_null.
        -- by eapply violates_type.
        -- by eapply violates_check.
      * case_decide as Hu; [|by apply elem_of_nil in Hdup].
        apply list_elem_of_singleton in Hdup as ->. destruct Hu as [Hu Hd].
        apply duplicated_spec in Hd as (j & r' & v' & ? & ? & ? & ?).
        by eapply violates_unique.
    + rewrite list_elem_of_singleton. intros ->. by eapply violates_missing.
  - intros Hviol.
    destruct Hviol as [r0 H0 Hnone|r0 H0 Hv Hn|r0 v H0 Hv Hnn Ht
                      |r0 v c H0 Hv Hnn Hc Hck|r0 v j r' v' Hu Hj H0 Hv Hj' Hv' Hs];
      rewrite Hi in H0; injection H0 as <-.
    + rewrite Hnone. apply list_elem_of_here.
    + rewrite Hv, elem_of_app, elem_of_cell_violations. naive_solver.
    + rewrite Hv, elem_of_app, elem_of_cell_violations. naive_solver.
    + rewrite Hv, elem_of_app, elem_of_cell_violations. naive_solver.
    + rewrite Hv, elem_of_app. right.
      rewrite decide_True; [apply list_elem_of_here|]. split; [done|].
      apply duplicated_spec. by exists j, r', v'.
Qed.

Lemma elem_of_field_violations f df e :
  e ∈ field_violations f df ↔
  ∃ r, df !! v_row e = Some r ∧ v_field e = fname f
    ∧ failure_case e = default VNull (r !! fname f)
    ∧ violates f df (v_row e) (v_reason e).
Proof.
  unfold field_violations. rewrite list_elem_of_join. split.
  - intros (l & He & Hl).
    apply elem_of_lookup_imap in Hl as (i & c & -> & Hc).
    apply list_lookup_fmap_Some in Hc as (r & -> & Hr).
    apply list_elem_of_fmap in He as (rs & -> & Hrs). simpl.
    exists r. repeat split; [done|]. by apply (violations_at_spec f df i r rs).
  - intros (r & Hr & Hf & Hcase & Hviol). destruct e as [fld i rs fc]. simpl in *.
    subst fld fc. eexists. split; [|apply elem_of_lookup_imap; exists i, (r !! fname f);
      split; [done|]; apply list_lookup_fmap_Some; by exists r].
    apply list_elem_of_fmap. exists rs. split; [done|].
    by apply (violations_at_spec f df i r rs).
Qed.

(** The report lists exactly the violations of the frame. *)
Lemma elem_of_violations schema df e :
  e ∈ violations schema df ↔
  ∃ f r, f ∈ schema ∧ df !! v_row e = Some r ∧ v_field e = fname f
    ∧ failure_case e = default VNull (r !! fname f)
    ∧ violates f df (v_row e) (v_reason e).
Proof.
  unfold violations. rewrite list_elem_of_bind.
  setoid_rewrite elem_of_field_violations. naive_solver.
Qed.

Lemma violates_reported schema df f i rs :
  f ∈ schema → violates f df i rs →
  ∃ r, df !! i = Some r
    ∧ Violation (fname f) i rs (default VNull (r !! fname f)) ∈ violations schema df.
Proof.
  intros Hf Hviol. assert (∃ r, df !! i = Some r) as [r Hr]
    by (destruct Hviol; eauto).
  exists r. split; [done|]. apply elem_of_violations. exists f, r. by simpl.
Qed.

Lemma no_violation_satisfies schema df :
  (∀ f i rs, f ∈ schema → ¬ violates f df i rs) → satisfies schema df.
Proof.
  intros Hno f i r Hf Hr. specialize (Hno f i).
  destruct (r !! fname f) as [v|] eqn:Hv;
    [|destruct (Hno ColumnMissing Hf); by eapply violates_missing].
  exists v. split; [done|]. repeat split.
  - intros Hnn. destruct (decide (has_type (ftype f) v)) as [|Ht]; [done|].
    destruct (Hno (WrongType (ftype f)) Hf). by eapply violates_type.
  - intros Hnull ->. destruct (Hno NotNullable Hf). by eapply violates_null.
  - intros c Hc Hnn. destruct (decide (check_holds c v)) as [|Hck]; [done|].
    destruct (Hno (CheckFailed c) Hf). by eapply violates_check.
  - intros Hu j r' v' Hj Hr' Hv' Hs. destruct (Hno NotUnique Hf).
    by eapply violates_unique.
Qed.

Lemma validate_Validated schema df df' :
  validate schema df = Validated df' →
  df' = coerce_frame schema df ∧ violations schema df' = [].
Proof.
  unfold validate. destruct (violations schema (coerce_frame schema df)) eqn:E;
    [|discriminate]. intros [= <-]. done.
Qed.

Lemma validate_SchemaErrors schema df errs :
  validate schema df = SchemaErrors errs →
  errs = violations schema (coerce_frame schema df) ∧ errs ≠ [].
Proof.
  unfold validate. destruct (violations schema (coerce_frame schema df)) eqn:E;
    [discriminate|]. intros [= <-]. done.
Qed.

(** A cell of a coerced row: the original cell, coerced once for each
    coercing field of its name. *)
Lemma coerce_row_lookup schema (r : gmap string value) k :
  coerce_row schema r !! k =
  foldr (λ f o, if coerce f then
                  if decide (fname f = k) then coerce_value (ftype f) <$> o else o
                else o) (r !! k) schema.
Proof.
  induction schema as [|f schema IH]; simpl; [done|].
  destruct (coerce f); [|done]. rewrite lookup_alter.
  destruct (decide (fname f = k)) as [->|]; by rewrite IH.
Qed.

End ValidationFacts.

Lemma validate_rejects schema df f i rs :
  f ∈ schema → violates f (coerce_frame schema df) i rs →
  ∃ errs r, validate schema df = SchemaErrors errs
    ∧ coerce_frame schema df !! i = Some r
    ∧ Violation (fname f) i rs (default VNull (r !! fname f)) ∈ errs.
Proof.
  intros Hf Hviol.
  destruct (violates_reported schema _ f i rs Hf Hviol) as (r & Hr & Hin).
  unfold validate. destruct (violations schema (coerce_frame schema df)) as [|e errs];
    [by apply elem_of_nil in Hin|]. by exists (e :: errs), r.
Qed.

(** C1: validation gathers every violation before it fails. A validated
    table is the coerced candidate and satisfies every declared constraint
    of its schema; a rejected one comes with a non-empty report that holds
    every violation of every field on every row, and nothing else; a table
    is validated exactly when it has no violation. The loader records a
    rejection in the failed list under the table's name with the
    schema-validation marker, leaves the store and the load counters as
    they were, and returns. *)
Theorem validation_is_exhaustive :
  (∀ schema df df',
     validate schema df = Validated df' →
     df' = coerce_frame schema df ∧ satisfies schema df')
  ∧ (∀ schema df errs,
       validate schema df = SchemaErrors errs →
       errs ≠ []
       ∧ (∀ f i rs, f ∈ schema → violates f (coerce_frame schema df) i rs →
            ∃ e, e ∈ errs ∧ v_field e = fname f ∧ v_row e = i ∧ v_reason e = rs)
       ∧ (∀ e, e ∈ errs →
            ∃ f, f ∈ schema ∧ v_field e = fname f
              ∧ violates f (coerce_frame schema df) (v_row e) (v_reason e)))
  ∧ (∀ schema df,
       (∃ df', validate schema df = Validated df') ↔
       (∀ f i rs, f ∈ schema → ¬ violates f (coerce_frame schema df) i rs))
  ∧ (∀ self df table_name schema errs,
       df ≠ [] →
       create_schema_raises (engine self) table_name = false →
       validate schema (stamp (processing_timestamp self) df) = SchemaErrors errs →
       let self' := _load_to_silver self df table_name schema in
       failed_tables (stats self')
         = (failed_tables (stats self) ++ [table_name +:+ " (Schema Validation)"])%list
       ∧ log self' = (log self ++ [ErrorValidation table_name (take 5 errs)])%list
       ∧ engine self' = engine self
       ∧ loaded_tables (stats self') = loaded_tables (stats self)
       ∧ total_records (stats self') = total_records (stats self)).
Proof.
  split; [|split; [|split]].
  - intros schema df df' Hval. apply validate_Validated in Hval as [-> Hnil].
    split; [done|]. apply no_violation_satisfies. intros f i rs Hf Hviol.
    destruct (violates_reported schema _ f i rs Hf Hviol) as (r & _ & Hin).
    rewrite Hnil in Hin. by apply elem_of_nil in Hin.
  - intros schema df errs Herr. apply validate_SchemaErrors in Herr as [-> Hne].
    split; [done|]. split.
    + intros f i rs Hf Hviol.
      destruct (violates_reported schema _ f i rs Hf Hviol) as (r & _ & Hin).
      eexists. split; [exact Hin|]. done.
    + intros e He. apply elem_of_violations in He as (f & r & Hf & _ & Hn & _ & Hv).
      by exists f.
  - intros schema df. split.
    + intros [df' Hval] f i rs Hf Hviol.
      apply validate_Validated in Hval as [-> Hnil].
      destruct (violates_reported schema _ f i rs Hf Hviol) as (r & _ & Hin).
      rewrite Hnil in Hin. by apply elem_of_nil in Hin.
    + intros Hno. unfold validate.
      destruct (violations schema (coerce_frame schema df)) as [|e errs] eqn:E;
        [by eexists|].
      assert (e ∈ violations schema (coerce_frame schema df)) as He
        by (rewrite E; apply list_elem_of_here).
      apply elem_of_violations in He as (f & r & Hf & _ & _ & _ & Hv).
      by destruct (Hno f _ _ Hf Hv).
  - intros self df table_name schema errs Hne Hcs Hval. unfold _load_to_silver.
    rewrite decide_False by done. rewrite Hcs, Hval. done.
Qed.

Lemma validation_is_exhaustive_witness :
  let df := [ payer_row (SPayer.mk (Some "P1") (Some "Medicare"));
              payer_row (SPayer.mk (Some "P1") None) ] in
  let errs := [ Violation "payer_id" 0 NotUnique (VStr "P1");
                Violation "payer_id" 1 NotUnique (VStr "P1");
                Violation "payer_name" 1 NotNullable VNull;
                Violation "silver_processing_timestamp" 0 ColumnMissing VNull;
                Violation "silver_processing_timestamp" 1 ColumnMissing VNull ] in
  errs ≠ []
  ∧ (∀ f i rs, f ∈ SilverPayersSchema →
       violates f (coerce_frame SilverPayersSchema df) i rs →
       ∃ e, e ∈ errs ∧ v_field e = fname f ∧ v_row e = i ∧ v_reason e = rs)
  ∧ (∀ e, e ∈ errs →
       ∃ f, f ∈ SilverPayersSchema ∧ v_field e = fname f
         ∧ violates f (coerce_frame SilverPayersSchema df) (v_row e) (v_reason e)).
Proof.
  intros df errs.
  apply (proj1 (proj2 validation_is_exhaustive) SilverPayersSchema df errs).
  vm_compute. reflexivity.
Defined.

(** ** Length of stay *)

(** C6: every row of the encounter transform has a parsed encounter date,
    and its length of stay is the whole days from that date to the
    discharge date, raised to 0 when negative, and 0 when the discharge date
    is missing or does not parse. An encounter of 2024-01-10 discharged on
    2024-01-08 stays 0 days. *)
Theorem length_of_stay_clamped :
  (∀ (P : Pandas) df_encounters r,
     r ∈ _transform_encounters df_encounters →
     ∃ start, SEncounter.encounter_date r = Some start
       ∧ SEncounter.length_of_stay_days r =
           match SEncounter.discharge_date r with
           | Some stop => 0 `max` days (stop - start)
           | None => 0
           end)
  ∧ (let enc := λ id start stop,
       BEncounter.mk (Some id) (Some "p1") None None (Some start) stop
         (Some "wellness") (Some "10.00") (Some "5.00") in
     SEncounter.length_of_stay_days <$>
       @_transform_encounters Iso.pandas
         [enc "e1" "2024-01-10" (Some "2024-01-08");
          enc "e2" "2024-01-10" None;
          enc "e3" "2024-01-10" (Some "tomorrow");
          enc "e4" "2024-01-10" (Some "2024-01-13")]
     = [0; 0; 0; 3]).
Proof.
  split; [|by vm_compute].
  intros P df_encounters r Hr. unfold _transform_encounters in Hr.
  destruct (decide (df_encounters = [])); [by apply elem_of_nil in Hr|].
  apply list_elem_of_fmap in Hr as ([[e start] stop] & -> & Hin).
  apply list_elem_of_filter in Hin as [(_ & _ & [t ->]) _]. simpl.
  exists t. split; [done|]. destruct stop as [d|]; [|done]. simpl.
  case_decide; lia.
Qed.

Lemma length_of_stay_clamped_witness :
  let r := SEncounter.mk (Some "e1") (Some "p1") None None
             (Some (Iso.days_from_civil 2024 1 10 * NS_PER_DAY))
             (Some (Iso.days_from_civil 2024 1 8 * NS_PER_DAY))
             (Some "WELLNESS") 0 10 5 in
  ∃ start, SEncounter.encounter_date r = Some start
    ∧ SEncounter.length_of_stay_days r =
        match SEncounter.discharge_date r with
        | Some stop => 0 `max` days (stop - start)
        | None => 0
        end.
Proof.
  apply (proj1 length_of_stay_clamped Iso.pandas
    [BEncounter.mk (Some "e1") (Some "p1") None None (Some "2024-01-10")
       (Some "2024-01-08") (Some "wellness") (Some "10") (Some "5")]).
  vm_compute. apply list_elem_of_here.
Defined.

(** ** Gender *)

Section GenderFacts.
Context `{Pandas}.

Lemma patients_base_rows ts df_patients base :
  patients_base ts df_patients = inr base →
  (∀ r, r ∈ base → ∃ p d, p ∈ required_patients df_patients ∧ base_of ts p d r)
  ∧ (∀ p, p ∈ required_patients df_patients → ∃ r d, r ∈ base ∧ base_of ts p d r).
Proof.
  intros Hbase. apply patients_base_inr in Hbase.
  set (rows := required_patients df_patients) in *.
  set (dob := to_datetime (BPatient.date_of_birth <$> rows)) in *.
  assert (length dob = length rows) as Hlen
    by (unfold dob; rewrite to_datetime_length, length_fmap; done).
  split.
  - intros r Hr. apply list_elem_of_lookup in Hr as [i Hi].
    destruct (Forall2_lookup_r _ _ _ _ _ Hbase Hi) as ([p d] & Hz & Hb).
    apply lookup_zip_Some in Hz as [Hp _].
    exists p, d. split; [by eapply list_elem_of_lookup_2|done].
  - intros p Hp. apply list_elem_of_lookup in Hp as [i Hi].
    destruct (lookup_lt_is_Some_2 dob i) as [d Hd];
      [rewrite Hlen; by eapply lookup_lt_Some|].
    assert (zip rows dob !! i = Some (p, d)) as Hz by by apply lookup_zip_Some.
    destruct (Forall2_lookup_l _ _ _ _ _ Hbase Hz) as (r & Hr & Hb).
    exists r, d. split; [by eapply list_elem_of_lookup_2|done].
Qed.

End GenderFacts.




Example gender_X_passes_the_transform :
  SPatient.gender <$>
    @_transform_patients Iso.pandas (Iso.days_from_civil 2024 1 1 * NS_PER_DAY)
      [BPatient.mk (Some "p1") (Some "ada") (Some "king") (Some "2000-01-01") (Some "X");
       BPatient.mk (Some "p2") (Some "bob") (Some "ross") (Some "1990-05-05") None;
       BPatient.mk (Some "p3") (Some "cy") (Some "young") (Some "1980-03-03") (Some "M")]
      [] []
  = [Some "X"; Some "Unknown"; Some "Male"].
Proof. by vm_compute. Qed.

(** ** Claim totals *)

Section ClaimFacts.
Context `{Pandas}.

Let amount t := to_numeric_fillna (BTransaction.transaction_amount t).
Let paid t := to_numeric_fillna (BTransaction.payments t).




End ClaimFacts.



(** ** Duplicate transaction ids *)

(** Two rows that pass a filter keep their order in the filtered list. *)
Lemma filter_lookup_two {A} (P : A → Prop) `{∀ x, Decision (P x)}
    (l : list A) i j x y :
  (i < j)%nat → l !! i = Some x → l !! j = Some y → P x → P y →
  ∃ i' j', (i' < j')%nat ∧ filter P l !! i' = Some x ∧ filter P l !! j' = Some y.
Proof.
  intros Hij Hi Hj Hx Hy.
  pose proof (take_drop_middle l i x Hi) as Hl.
  assert (drop (S i) l !! (j - S i)%nat = Some y) as Hj'.
  { rewrite lookup_drop. rewrite <- Hj. f_equal. lia. }
  pose proof (take_drop_middle _ _ y Hj') as Hl'.
  set (l1 := take i l) in *. set (l2 := take (j - S i) (drop (S i) l)) in *.
  set (l3 := drop (S (j - S i)) (drop (S i) l)) in *.
  rewrite <- Hl' in Hl. rewrite <- Hl.
  rewrite filter_app, filter_cons_True by done.
  rewrite filter_app, filter_cons_True by done.
  exists (length (filter P l1)), (length (filter P l1) + S (length (filter P l2)))%nat.
  split; [lia|]. split.
  - by rewrite list_lookup_middle.
  - rewrite lookup_app_r by lia.
    replace (length (filter P l1) + S (length (filter P l2)) - length (filter P l1))%nat
      with (S (length (filter P l2))) by lia.
    simpl. by rewrite list_lookup_middle.
Qed.

Lemma transaction_id_duplicate_rejected ts (out : list STransaction.t) i j r1 r2 k :
  i ≠ j → out !! i = Some r1 → out !! j = Some r2 →
  STransaction.transaction_id r1 = Some k →
  STransaction.transaction_id r2 = Some k →
  ∃ errs, validate SilverClaimsTransactionsSchema (stamp ts (transaction_row <$> out))
            = SchemaErrors errs
    ∧ Violation "transaction_id" i NotUnique (VStr k) ∈ errs
    ∧ Violation "transaction_id" j NotUnique (VStr k) ∈ errs.
Proof.
  intros Hij Hi Hj H1 H2.
  set (f := field "transaction_id" DStr false true false []).
  set (schema := SilverClaimsTransactionsSchema).
  set (df := stamp ts (transaction_row <$> out)).
  set (row := λ r, coerce_row schema
         (<["silver_processing_timestamp" := VDate ts]> (transaction_row r))).
  assert (∀ n r, out !! n = Some r → coerce_frame schema df !! n = Some (row r))
    as Hrow.
  { intros n r Hn. unfold coerce_frame, df, stamp. by rewrite !list_lookup_fmap, Hn. }
  assert (∀ r, STransaction.transaction_id r = Some k →
            row r !! "transaction_id" = Some (VStr k)) as Hcell.
  { intros [tid cid d a pc tt] Hr. simpl in Hr. subst tid. unfold row.
    rewrite coerce_row_lookup. by vm_compute. }
  assert (f ∈ schema) as Hf by apply list_elem_of_here.
  assert (violates f (coerce_frame schema df) i NotUnique) as Hv1.
  { apply (violates_unique f _ i (row r1) (VStr k) j (row r2) (VStr k));
      [done|done|by apply Hrow|by apply Hcell|by apply Hrow|by apply Hcell|done]. }
  assert (violates f (coerce_frame schema df) j NotUnique) as Hv2.
  { apply (violates_unique f _ j (row r2) (VStr k) i (row r1) (VStr k));
      [done|done|by apply Hrow|by apply Hcell|by apply Hrow|by apply Hcell|done]. }
  destruct (validate_rejects _ _ _ _ _ Hf Hv1) as (errs & r1' & Hval & Hr1' & Hin1).
  destruct (validate_rejects _ _ _ _ _ Hf Hv2) as (errs' & r2' & Hval' & Hr2' & Hin2).
  rewrite Hval in Hval'. injection Hval' as <-.
  rewrite (Hrow _ _ Hi) in Hr1'. injection Hr1' as <-.
  rewrite (Hrow _ _ Hj) in Hr2'. injection Hr2' as <-.
  exists errs. split; [done|].
  change (VStr k) with (default VNull (Some (VStr k))).
  rewrite <- (Hcell r1 H1) at 1. rewrite <- (Hcell r2 H2). done.
Qed.

(** C8, as the code has it: when two rows of the transaction source have
    the same non-null transaction id, a non-null claim id and a transaction
    date that parses, the transaction transform keeps both, in order, and
    validation of the resulting table fails with a report that holds a
    uniqueness violation on transaction_id, carrying the duplicated value,
    at each of the two rows. *)
Theorem duplicate_transaction_ids_rejected (P : Pandas) ts df_trans i j t1 t2 k d1 d2 :
  (i < j)%nat →
  df_trans !! i = Some t1 → df_trans !! j = Some t2 →
  BTransaction.transaction_id t1 = Some k →
  BTransaction.transaction_id t2 = Some k →
  is_Some (BTransaction.claim_id t1) → is_Some (BTransaction.claim_id t2) →
  to_datetime (BTransaction.transaction_date <$> df_trans) !! i = Some (Some d1) →
  to_datetime (BTransaction.transaction_date <$> df_trans) !! j = Some (Some d2) →
  let out := _transform_claims_transactions df_trans in
  ∃ i' j', (i' < j')%nat
    ∧ out !! i' = Some (silver_transaction (t1, Some d1))
    ∧ out !! j' = Some (silver_transaction (t2, Some d2))
    ∧ ∃ errs,
        validate SilverClaimsTransactionsSchema (stamp ts (transaction_row <$> out))
          = SchemaErrors errs
        ∧ Violation "transaction_id" i' NotUnique (VStr k) ∈ errs
        ∧ Violation "transaction_id" j' NotUnique (VStr k) ∈ errs.
Proof.
  intros Hij Hi Hj Hk1 Hk2 Hc1 Hc2 Hd1 Hd2 out.
  assert (df_trans ≠ []) as Hne by (intros ->; discriminate).
  assert (transactions_dated df_trans !! i = Some (t1, Some d1)) as Hz1
    by by apply lookup_zip_Some.
  assert (transactions_dated df_trans !! j = Some (t2, Some d2)) as Hz2
    by by apply lookup_zip_Some.
  destruct (filter_lookup_two
    (λ '(t, d), is_Some (BTransaction.transaction_id t)
                ∧ is_Some (BTransaction.claim_id t) ∧ is_Some d)
    (transactions_dated df_trans) i j _ _ Hij Hz1 Hz2)
    as (i' & j' & Hij' & Hi' & Hj').
  { rewrite Hk1. eauto. }
  { rewrite Hk2. eauto. }
  assert (out !! i' = Some (silver_transaction (t1, Some d1))) as Ho1.
  { unfold out, _transform_claims_transactions. rewrite decide_False by done.
    by rewrite list_lookup_fmap, Hi'. }
  assert (out !! j' = Some (silver_transaction (t2, Some d2))) as Ho2.
  { unfold out, _transform_claims_transactions. rewrite decide_False by done.
    by rewrite list_lookup_fmap, Hj'. }
  exists i', j'. split; [done|]. split; [done|]. split; [done|].
  apply (transaction_id_duplicate_rejected ts out i' j'
           (silver_transaction (t1, Some d1)) (silver_transaction (t2, Some d2)) k);
    [lia|done..].
Qed.

Lemma duplicate_transaction_ids_rejected_witness :
  let trans := λ id date,
    BTransaction.mk (Some id) (Some "C1") (Some date) (Some "10") None (Some "charge")
      None None in
  let df_trans := [trans "T1" "2024-01-02"; trans "T2" "2024-01-03";
                   trans "T1" "2024-01-04"] in
  let out := @_transform_claims_transactions Iso.pandas df_trans in
  ∃ i' j', (i' < j')%nat
    ∧ out !! i' = Some (@silver_transaction Iso.pandas
                          (trans "T1" "2024-01-02",
                           Some (Iso.days_from_civil 2024 1 2 * NS_PER_DAY)))
    ∧ out !! j' = Some (@silver_transaction Iso.pandas
                          (trans "T1" "2024-01-04",
                           Some (Iso.days_from_civil 2024 1 4 * NS_PER_DAY)))
    ∧ ∃ errs,
        validate SilverClaimsTransactionsSchema (stamp 0 (transaction_row <$> out))
          = SchemaErrors errs
        ∧ Violation "transaction_id" i' NotUnique (VStr "T1") ∈ errs
        ∧ Violation "transaction_id" j' NotUnique (VStr "T1") ∈ errs.
Proof.
  intros trans df_trans out.
  apply (duplicate_transaction_ids_rejected Iso.pandas 0 df_trans 0 2
           (trans "T1" "2024-01-02") (trans "T1" "2024-01-04") "T1").
  - lia.
  - reflexivity.
  - reflexivity.
  - reflexivity.
  - reflexivity.
  - vm_compute. eauto.
  - vm_compute. eauto.
  - by vm_compute.
  - by vm_compute.
Defined.

(** C8 as worded fails when the shared transaction date is non-null but
    does not parse: the two rows with the same transaction id are dropped
    with no report, and the table of the remaining row is validated. *)
Lemma duplicate_transaction_ids_dropped_when_date_unparseable :
  let trans := λ id date,
    BTransaction.mk (Some id) (Some "C1") (Some date) (Some "10") None (Some "charge")
      None None in
  let df_trans := [trans "T1" "soon"; trans "T1" "soon"; trans "T2" "2024-01-04"] in
  let out := @_transform_claims_transactions Iso.pandas df_trans in
  STransaction.transaction_id <$> out = [Some "T2"]
  ∧ ∃ df_validated,
      validate SilverClaimsTransactionsSchema (stamp 0 (transaction_row <$> out))
        = Validated df_validated.
Proof. intros trans df_trans out. split; [by vm_compute|]. eexists. by vm_compute. Qed.

(** ** The run *)

Lemma load_to_silver_outcome self df table_name schema :
  let o := attempt (engine self) (processing_timestamp self) df table_name schema in
  let self' := _load_to_silver self df table_name schema in
  log self' = (log self ++ [outcome_entry table_name o])%list
  ∧ failed_tables (stats self')
      = (failed_tables (stats self) ++ outcome_failed table_name o)%list
  ∧ loaded_tables (stats self') = (loaded_tables (stats self) + outcome_loaded o)%nat
  ∧ processing_timestamp self' = processing_timestamp self
  ∧ engine self' = match o with
                   | Loaded df_validated =>
                       replace_table (engine self) table_name df_validated
                   | _ => engine self
                   end.
Proof.
  unfold attempt, _load_to_silver.
  destruct (decide (df = [])); simpl;
    [by rewrite Nat.add_0_r|].
  destruct (create_schema_raises (engine self) table_name); simpl;
    [by rewrite Nat.add_0_r|].
  destruct (validate schema (stamp (processing_timestamp self) df)); simpl;
    [|by rewrite Nat.add_0_r].
  destruct (to_sql_raises (engine self) table_name); simpl;
    [by rewrite Nat.add_0_r|by rewrite app_nil_r, Nat.add_1_r].
Qed.

(** The outcome of a table depends on the store only through its readiness
    to create the schema and to write that table. *)
Lemma attempt_ext e e' ts df table_name schema :
  create_schema_raises e = create_schema_raises e' →
  to_sql_raises e = to_sql_raises e' →
  attempt e ts df table_name schema = attempt e' ts df table_name schema.
Proof. intros H1 H2. unfold attempt. by rewrite H1, H2. Qed.

Lemma attempt_Loaded e ts df table_name schema df_validated :
  attempt e ts df table_name schema = Loaded df_validated →
  validate schema (stamp ts df) = Validated df_validated.
Proof.
  unfold attempt. destruct (decide (df = [])); [done|].
  destruct (create_schema_raises e table_name); [done|].
  destruct (validate schema (stamp ts df)); [|done].
  destruct (to_sql_raises e table_name); [done|]. by intros [= ->].
Qed.

Lemma foldl_pointwise {A B} (f g : A → B → A) (l : list B) (a : A) :
  (∀ a b, f a b = g a b) → foldl f a l = foldl g a l.
Proof.
  intros Hfg. revert a. induction l as [|b l IH]; intros a; simpl; [done|].
  by rewrite Hfg, IH.
Qed.

(** Loading a list of candidate tables one after the other. *)
Lemma load_all_outcomes (cands : list (frame * string * list Field)) self :
  let ts := processing_timestamp self in
  let outcome := λ '(df, table_name, schema),
    attempt (engine self) ts df table_name schema in
  let self' := foldl (λ s '(df, table_name, schema),
                 _load_to_silver s df table_name schema) self cands in
  log self' = (log self ++ ((λ c, outcome_entry c.1.2 (outcome c)) <$> cands))%list
  ∧ failed_tables (stats self')
      = (failed_tables (stats self)
           ++ (cands ≫= λ c, outcome_failed c.1.2 (outcome c)))%list
  ∧ loaded_tables (stats self')
      = (loaded_tables (stats self)
           + sum_list ((λ c, outcome_loaded (outcome c)) <$> cands))%nat
  ∧ processing_timestamp self' = ts
  ∧ silver (engine self')
      = foldl (λ m c, match outcome c with
                      | Loaded df_validated => <[c.1.2 := df_validated]> m
                      | _ => m
                      end) (silver (engine self)) cands.
Proof.
  revert self. induction cands as [|[[df name] schema] cands IH]; intros self; simpl.
  - by rewrite !app_nil_r, Nat.add_0_r.
  - destruct (load_to_silver_outcome self df name schema)
      as (Hlog & Hfailed & Hloaded & Hts & Hengine).
    set (self1 := _load_to_silver self df name schema) in *.
    destruct (IH self1) as (IHlog & IHfailed & IHloaded & IHts & IHsilver).
    assert (create_schema_raises (engine self1) = create_schema_raises (engine self)
            ∧ to_sql_raises (engine self1) = to_sql_raises (engine self)) as [Hc Hs].
    { rewrite Hengine. by destruct (attempt _ _ _ _ _). }
    assert (∀ ts df' name' schema',
      attempt (engine self1) ts df' name' schema'
      = attempt (engine self) ts df' name' schema') as Hsame.
    { intros ts df' name' schema'. by apply attempt_ext. }
    rewrite IHlog, IHfailed, IHloaded, IHts, IHsilver, Hlog, Hfailed, Hloaded, Hts.
    rewrite <- !(assoc_L app). simpl. repeat split.
    + do 2 f_equal. apply list_fmap_ext. intros ? [[df' name'] schema'] _.
      simpl. by rewrite Hsame.
    + do 2 f_equal. apply list_bind_ext; [|done]. intros [[df' name'] schema'].
      simpl. by rewrite Hsame.
    + rewrite <- Nat.add_assoc. do 3 f_equal.
      apply list_fmap_ext. intros ? [[df' name'] schema'] _. simpl. by rewrite Hsame.
    + assert (silver (engine self1)
              = match attempt (engine self) (processing_timestamp self)
                        df name schema with
                | Loaded df_validated => <[name := df_validated]> (silver (engine self))
                | _ => silver (engine self)
                end) as -> by (rewrite Hengine; by destruct (attempt _ _ _ _ _)).
      apply foldl_pointwise. intros m [[df' name'] schema']. simpl. by rewrite Hsame.
Qed.

Section RunFacts.
Context `{Pandas}.

Lemma load_silver_candidates self :
  load_silver self =
  foldl (λ s '(df, table_name, schema), _load_to_silver s df table_name schema)
    self (candidates (engine self) (processing_timestamp self)).
Proof.
  reflexivity.
Qed.

End RunFacts.




Example a_run_with_three_failures :
  let ts := Iso.days_from_civil 2024 1 1 * NS_PER_DAY in
  let e := {|
    bronze_patients := Some
      [BPatient.mk (Some "p1") (Some "ada") (Some "king") (Some "2000-01-01") (Some "X")];
    bronze_claims := Some
      [BClaim.mk (Some "C1") (Some "p1") None (Some "2024-01-01") None];
    bronze_claims_transactions := None;
    bronze_encounters := Some
      [BEncounter.mk (Some "e1") (Some "p1") None (Some "P1") (Some "2023-12-01")
         None (Some "wellness") (Some "10") (Some "5")];
    bronze_payers := Some [BPayer.mk (Some "P1") (Some "Medicare")];
    create_schema_raises := λ _, false;
    to_sql_raises := λ table_name, bool_decide (table_name = "silver_payers_dim");
    silver := ∅ |} in
  ∃ self, @main Iso.pandas (Some e) ts = Some self
    ∧ failed_tables (stats self)
        = ["silver_patients_dim (Schema Validation)";
           "silver_claims_transactions_fact"; "silver_payers_dim"]
    ∧ loaded_tables (stats self) = 2%nat
    ∧ total_records (stats self) = 2%nat
    ∧ (λ table_name, bool_decide (is_Some (silver (engine self) !! table_name)))
        <$> ["silver_patients_dim"; "silver_claims_fact";
             "silver_claims_transactions_fact"; "silver_encounters_fact";
             "silver_payers_dim"]
      = [false; true; false; true; false].
Proof.
  intros ts e. eexists. split; [reflexivity|].
  split; [by vm_compute|]. split; [by vm_compute|]. split; [by vm_compute|].
  by vm_compute.
Qed.

(** ** The tables a run publishes *)

Section StoreFacts.
Context {C : Type} (name : C → string) (outcome : C → load_outcome).

Let published (m : gmap string frame) (c : C) : gmap string frame :=
  match outcome c with
  | Loaded df_validated => <[name c := df_validated]> m
  | _ => m
  end.

Lemma published_untouched (cands : list C) (m : gmap string frame) table_name :
  table_name ∉ name <$> cands →
  foldl published m cands !! table_name = m !! table_name.
Proof.
  revert m. induction cands as [|c cands IH]; intros m Hnot; simpl; [done|].
  rewrite fmap_cons, not_elem_of_cons in Hnot. destruct Hnot as [Hne Hnot].
  rewrite IH by done. unfold published. destruct (outcome c); try done.
  by rewrite lookup_insert_ne.
Qed.

(** With distinct table names, a loaded table is what the store holds
    under its name when the run ends. *)
Lemma published_loaded (cands : list C) (m : gmap string frame) c df_validated :
  NoDup (name <$> cands) → c ∈ cands → outcome c = Loaded df_validated →
  foldl published m cands !! name c = Some df_validated.
Proof.
  revert m. induction cands as [|c' cands IH]; intros m Hnd Hc Ho; simpl.
  - by apply elem_of_nil in Hc.
  - rewrite fmap_cons in Hnd. apply NoDup_cons in Hnd as [Hnot Hnd].
    apply elem_of_cons in Hc as [->|Hc].
    + rewrite published_untouched by done. unfold published. rewrite Ho.
      by rewrite lookup_insert_eq.
    + by apply IH.
Qed.

End StoreFacts.

Section PublishedTables.
Context `{Pandas}.

Lemma candidates_names e ts :
  NoDup ((λ c : frame * string * list Field, c.1.2) <$> candidates e ts).
Proof.
  unfold candidates. simpl.
  repeat (apply NoDup_cons; split;
    [intros Hin;
     repeat (apply elem_of_cons in Hin as [Hin|Hin]; [discriminate|]);
     by apply elem_of_nil in Hin|]).
  apply NoDup_nil_2.
Qed.

(** A table a fresh run reports as loaded is in the store when the run
    ends, and it is the validated candidate of that table. *)
Lemma main_loaded e now self table_name n :
  main (Some e) now = Some self →
  InfoLoaded table_name n ∈ log self →
  ∃ df schema df_validated,
    (df, table_name, schema) ∈ candidates e now
    ∧ validate schema (stamp now df) = Validated df_validated
    ∧ n = length df_validated
    ∧ silver (engine self) !! table_name = Some df_validated.
Proof.
  set (self0 := {| engine := e; processing_timestamp := now;
                   stats := {| loaded_tables := 0; total_records := 0;
                               failed_tables := [] |};
                   log := [] |}).
  change (main (Some e) now) with (Some (load_silver self0)).
  intros [= <-] Hin. rewrite load_silver_candidates in *.
  change (engine self0) with e in *.
  change (processing_timestamp self0) with now in *.
  destruct (load_all_outcomes (candidates e now) self0)
    as (Hlog & _ & _ & _ & Hsilver).
  change (engine self0) with e in *.
  change (processing_timestamp self0) with now in *.
  change (log self0) with (@nil log_entry) in Hlog.
  rewrite app_nil_l in Hlog. rewrite Hlog in Hin. rewrite Hsilver.
  apply list_elem_of_fmap in Hin as ([[df name] schema] & Hentry & Hc).
  cbn [fst snd] in Hentry.
  destruct (attempt e now df name schema) as [dfv| | |] eqn:Ho; try discriminate.
  injection Hentry as -> ->.
  exists df, schema, dfv. split; [done|].
  split; [by eapply attempt_Loaded|]. split; [done|].
  apply (published_loaded (λ c : frame * string * list Field, c.1.2)
           (λ '(df, table_name, schema), attempt e now df table_name schema)
           (candidates e now) (silver e) (df, name, schema) dfv);
    [apply candidates_names|done|done].
Qed.

End PublishedTables.

(** ** The payer of a patient *)

Lemma elem_of_drop_duplicates_last {A} (key : A → cell) (df : list A) (r : A) :
  r ∈ drop_duplicates_last key df ↔
  ∃ before after, df = (before ++ r :: after)%list ∧ key r ∉ key <$> after.
Proof.
  induction df as [|r0 df IH]; simpl.
  - rewrite elem_of_nil. split; [done|]. intros (before & after & Heq & _).
    by destruct before.
  - destruct (decide (key r0 ∈ key <$> df)) as [Hdup|Hlast].
    + rewrite IH. split.
      * intros (before & after & -> & Hnot). by exists (r0 :: before), after.
      * intros ([|r1 before] & after & Heq & Hnot); simplify_eq/=.
        -- done.
        -- by exists before, after.
    + rewrite elem_of_cons, IH. split.
      * intros [->|(before & after & -> & Hnot)].
        -- by exists [], df.
        -- by exists (r0 :: before), after.
      * intros ([|r1 before] & after & Heq & Hnot); simplify_eq/=.
        -- by left.
        -- right. by exists before, after.
Qed.

(** Every key of the frame keeps one row. *)
Lemma drop_duplicates_last_covers {A} (key : A → cell) (df : list A) (r : A) :
  r ∈ df → ∃ r', r' ∈ drop_duplicates_last key df ∧ key r' = key r.
Proof.
  revert r. induction df as [|r0 df IH]; intros r Hr;
    [by apply elem_of_nil in Hr|]. simpl.
  destruct (decide (key r0 ∈ key <$> df)) as [Hdup|Hlast].
  - apply elem_of_cons in Hr as [->|Hr]; [|by apply IH].
    apply list_elem_of_fmap in Hdup as (r1 & Hk & Hr1).
    destruct (IH r1 Hr1) as (r' & Hr' & Hk'). exists r'. split; [done|congruence].
  - apply elem_of_cons in Hr as [->|Hr].
    + exists r0. split; [apply list_elem_of_here|done].
    + destruct (IH r Hr) as (r' & Hr' & Hk'). exists r'.
      split; [by apply list_elem_of_further|done].
Qed.

Section PayerFacts.
Context `{Pandas}.

(** The row kept for a patient is one of the patient's encounters, and no
    encounter of the patient comes after it in the order of the sort, in
    which an encounter without a date comes after every dated one. *)
Lemma patient_payer_map_last df_encounters m :
  m ∈ patient_payer_map df_encounters →
  m ∈ dated_encounters df_encounters
  ∧ ∀ m', m' ∈ dated_encounters df_encounters →
      PayerMap.patient_id m' = PayerMap.patient_id m →
      NaT_last_le (PayerMap.encounter_date m') (PayerMap.encounter_date m).
Proof.
  unfold patient_payer_map. fold (dated_encounters df_encounters).
  set (df := dated_encounters df_encounters).
  pose proof (sort_values_perm _ PayerMap.encounter_date df) as Hperm.
  pose proof (sort_values_sorted _ PayerMap.encounter_date df) as Hsorted.
  intros Hm. apply elem_of_drop_duplicates_last in Hm
    as (before & after & Heq & Hlast).
  rewrite Heq in Hperm, Hsorted. split.
  - rewrite <- Hperm. set_solver.
  - intros m' Hm' Hid. rewrite <- Hperm in Hm'.
    apply elem_of_app in Hm' as [Hm'|Hm'].
    + apply (StronglySorted_app_1_elem_of _ _ _ _ _ Hsorted Hm').
      apply list_elem_of_here.
    + apply elem_of_cons in Hm' as [->|Hm'].
      * destruct (PayerMap.encounter_date m); simpl; [lia|done].
      * destruct Hlast. rewrite <- Hid. by apply list_elem_of_fmap_2.
Qed.

(** A patient with an encounter has a row in the map. *)
Lemma patient_payer_map_covers df_encounters m :
  m ∈ dated_encounters df_encounters →
  ∃ m', m' ∈ patient_payer_map df_encounters
    ∧ PayerMap.patient_id m' = PayerMap.patient_id m.
Proof.
  intros Hm. unfold patient_payer_map. fold (dated_encounters df_encounters).
  apply drop_duplicates_last_covers.
  by rewrite (sort_values_perm _ PayerMap.encounter_date _).
Qed.

(** Whatever the library does with equal dates: when one of a patient's
    encounters has no date, the payer kept for the patient is that of an
    encounter without a date, not that of the latest dated one. *)
Lemma undated_encounter_sorts_last df_encounters m0 :
  m0 ∈ dated_encounters df_encounters →
  PayerMap.encounter_date m0 = None →
  ∃ m, m ∈ patient_payer_map df_encounters
    ∧ PayerMap.patient_id m = PayerMap.patient_id m0
    ∧ PayerMap.encounter_date m = None
    ∧ ∀ m', m' ∈ patient_payer_map df_encounters →
        PayerMap.patient_id m' = PayerMap.patient_id m0 →
        PayerMap.encounter_date m' = None.
Proof.
  intros Hm0 Hnone.
  assert (∀ m', m' ∈ patient_payer_map df_encounters →
            PayerMap.patient_id m' = PayerMap.patient_id m0 →
            PayerMap.encounter_date m' = None) as Hall.
  { intros m' Hm' Hid. apply patient_payer_map_last in Hm' as [_ Hlast].
    specialize (Hlast m0 Hm0 (eq_sym Hid)). rewrite Hnone in Hlast.
    by destruct (PayerMap.encounter_date m'). }
  destruct (patient_payer_map_covers _ _ Hm0) as (m & Hm & Hid).
  exists m. eauto.
Qed.

End PayerFacts.

(** C3 fails on the code: a patient with an encounter dated 2024-03-01
    under payer P1 and an encounter with no date under payer P2 gets payer
    P2, in either order of the two encounters, where the encounter with the
    latest encounter date is the one under P1; with the dated encounter
    alone the patient gets P1. *)
Theorem undated_encounter_wins_payer :
  let ts := Iso.days_from_civil 2024 6 1 * NS_PER_DAY in
  let patients :=
    [BPatient.mk (Some "p1") (Some "ada") (Some "king") (Some "2000-01-01") (Some "F")] in
  let enc := λ id payer date,
    BEncounter.mk (Some id) (Some "p1") None (Some payer) date None
      (Some "wellness") (Some "10") (Some "5") in
  let dated := enc "e1" "P1" (Some "2024-03-01") in
  let undated := enc "e2" "P2" None in
  let payers := [BPayer.mk (Some "P1") (Some "Medicare");
                 BPayer.mk (Some "P2") (Some "Aetna")] in
  let payer := λ r, (SPatient.payer_id r, SPatient.payer_name r) in
  payer <$> @_transform_patients Iso.pandas ts patients [dated; undated] payers
    = [(Some "P2", Some "Aetna")]
  ∧ payer <$> @_transform_patients Iso.pandas ts patients [undated; dated] payers
    = [(Some "P2", Some "Aetna")]
  ∧ payer <$> @_transform_patients Iso.pandas ts patients [dated] payers
    = [(Some "P1", Some "Medicare")].
Proof. by vm_compute. Qed.

Example payer_sentinel_examples :
  let ts := Iso.days_from_civil 2024 6 1 * NS_PER_DAY in
  let patients :=
    [BPatient.mk (Some "p1") (Some "ada") (Some "king") (Some "2000-01-01") (Some "F");
     BPatient.mk (Some "p2") (Some "bob") (Some "ross") (Some "1990-01-01") (Some "M")] in
  let enc := λ id payer date,
    BEncounter.mk (Some id) (Some "p1") None (Some payer) (Some date) None
      (Some "wellness") (Some "10") (Some "5") in
  let encounters := [enc "e1" "P1" "2024-03-01"; enc "e2" "P9" "2024-04-01";
                     enc "e3" "P1" "2023-01-01"] in
  let payers := [BPayer.mk (Some "P1") (Some "Medicare")] in
  let payer := λ r, (SPatient.payer_id r, SPatient.payer_name r) in
  payer <$> @_transform_patients Iso.pandas ts patients encounters payers
    = [(Some "P9", Some DEFAULT_PAYER); (None, Some DEFAULT_PAYER)]
  ∧ payer <$> @_transform_patients Iso.pandas ts patients encounters []
    = [(None, Some DEFAULT_PAYER); (None, Some DEFAULT_PAYER)]
  ∧ @_transform_patients Iso.pandas ts patients [] payers = [].
Proof. by vm_compute. Qed.

Section PayerEnrichment.
Context `{Pandas}.

(** What the payer enrichment does on every row of a successful patient
    transform. With no payer table the payer id is null and the payer name
    the sentinel. Otherwise the payer id is that of the row
    [patient_payer_map] keeps for the patient, or null when the patient has
    no encounter, and the payer name is that of a payer with this id whose
    id and name are non-null, or the sentinel when there is none. *)
Lemma transform_patients_payer ts df_patients df_encounters df_payers out r :
  transform_patients_try ts df_patients df_encounters df_payers = inr out →
  r ∈ out →
  (df_payers = [] →
     SPatient.payer_id r = None ∧ SPatient.payer_name r = Some DEFAULT_PAYER)
  ∧ (df_payers ≠ [] →
       ((∃ m, m ∈ patient_payer_map df_encounters
            ∧ PayerMap.patient_id m = SPatient.patient_id r
            ∧ SPatient.payer_id r = PayerMap.payer_id m)
        ∨ (SPatient.payer_id r = None
           ∧ ∀ m, m ∈ patient_payer_map df_encounters →
               PayerMap.patient_id m ≠ SPatient.patient_id r))
       ∧ ((∃ p name, p ∈ df_payers
             ∧ BPayer.payer_id p = SPatient.payer_id r
             ∧ is_Some (BPayer.payer_id p)
             ∧ BPayer.payer_name p = Some name
             ∧ SPatient.payer_name r = Some name)
          ∨ (SPatient.payer_name r = Some DEFAULT_PAYER
             ∧ ∀ p, p ∈ dropna [BPayer.payer_id; BPayer.payer_name] df_payers →
                 BPayer.payer_id p ≠ SPatient.payer_id r))).
Proof.
  unfold transform_patients_try.
  destruct (patients_base ts df_patients) as [e|base]; [discriminate|].
  destruct (decide (df_payers = [])) as [->|Hpayers].
  - intros [= <-] Hr. split; [|done]. intros _.
    apply list_elem_of_fmap in Hr as (r1 & -> & _). by destruct r1.
  - destruct (decide (df_encounters = [])) as [|Hencs]; [discriminate|].
    intros [= <-] Hr. split; [done|]. intros _.
    apply elem_of_merge_left in Hr as (r1 & Hr1 & Hname).
    apply elem_of_merge_left in Hr1 as (r0 & _ & Hid).
    assert (SPatient.payer_id r = SPatient.payer_id r1
            ∧ SPatient.patient_id r = SPatient.patient_id r1) as [Hpid Hpat].
    { destruct Hname as [[-> _]|(p & -> & _)]; by destruct r1. }
    split.
    + rewrite Hpid, Hpat.
      destruct Hid as [[-> Hno]|(m & -> & Hm & Hk)]; destruct r0; simpl in *.
      * right. split; [done|]. intros m Hm. by apply Hno.
      * left. by exists m.
    + destruct Hname as [[-> Hno]|(p & -> & Hp & Hk)].
      * right. split; [by destruct r1|]. intros p Hp.
        specialize (Hno p Hp). by destruct r1.
      * left. apply elem_of_dropna in Hp as [Hp Hcols].
        assert (is_Some (BPayer.payer_id p)) as [pid Hpid']
          by apply Hcols, list_elem_of_here.
        assert (is_Some (BPayer.payer_name p)) as [name Hn]
          by apply Hcols, list_elem_of_further, list_elem_of_here.
        exists p, name. destruct r1; simpl in *. rewrite Hn. simpl.
        repeat split; try done; by rewrite Hpid'.
Qed.

End PayerEnrichment.


(** * Further properties of the transforms, the loader and the run *)

(** ** Merges on a key that is unique on the right *)

Section UniqueKeys.
Context {A B C D : Type}.

Lemma filter_key_unique (kr : B → cell) (right : list B) (k : cell) :
  NoDup (kr <$> right) → (length (filter (λ b, kr b = k) right) ≤ 1)%nat.
Proof.
  induction right as [|b right IH]; intros Hnd; simpl; [lia|].
  rewrite fmap_cons in Hnd. apply NoDup_cons in Hnd as [Hnot Hnd].
  rewrite filter_cons. destruct (decide (kr b = k)) as [<-|]; [|by apply IH].
  assert (filter (λ b', kr b' = kr b) right = []) as ->; [|simpl; lia].
  apply elem_of_nil_inv. intros b' Hb'.
  apply list_elem_of_filter in Hb' as [Hk Hb']. destruct Hnot.
  rewrite <- Hk. by apply list_elem_of_fmap_2.
Qed.

(** With a key that is unique on the right, a left merge gives one row for
    each left row, in the order of the left frame. *)
Lemma fmap_merge_left_unique (kl : A → cell) (kr : B → cell)
    (mk : A → option B → C) (g : C → D) (h : A → D)
    (left : list A) (right : list B) :
  (∀ a ob, g (mk a ob) = h a) → NoDup (kr <$> right) →
  g <$> merge_left kl kr mk left right = h <$> left.
Proof.
  intros Hg Hnd. unfold merge_left.
  induction left as [|a left IH]; [done|].
  rewrite bind_cons, fmap_app, IH, fmap_cons.
  change (h a :: (h <$> left)) with ([h a] ++ (h <$> left))%list. f_equal.
  pose proof (filter_key_unique kr right (kl a) Hnd) as Hlen.
  destruct (filter (λ b, kr b = kl a) right) as [|b [|b' bs]]; simpl in *.
  - by rewrite Hg.
  - by rewrite Hg.
  - lia.
Qed.

End UniqueKeys.

Lemma drop_duplicates_last_NoDup {A} (key : A → cell) (df : list A) :
  NoDup (key <$> drop_duplicates_last key df).
Proof.
  induction df as [|r df IH]; simpl; [constructor|].
  destruct (decide (key r ∈ key <$> df)) as [Hdup|Hlast]; [done|].
  rewrite fmap_cons. apply NoDup_cons. split; [|done].
  intros Hin. apply list_elem_of_fmap in Hin as (r' & Hk & Hr').
  apply elem_of_drop_duplicates_last in Hr' as (before & after & -> & _).
  destruct Hlast. rewrite Hk. apply list_elem_of_fmap_2. set_solver.
Qed.

Section PatientRows.
Context `{Pandas}.

Lemma patient_payer_map_NoDup df_encounters :
  NoDup (PayerMap.patient_id <$> patient_payer_map df_encounters).
Proof. apply drop_duplicates_last_NoDup. Qed.

Lemma patients_base_ids ts df_patients base :
  patients_base ts df_patients = inr base →
  SPatient.patient_id <$> base
    = BPatient.patient_id <$> required_patients df_patients.
Proof.
  intros Hbase. apply patients_base_inr in Hbase.
  assert (length (to_datetime (BPatient.date_of_birth <$> required_patients df_patients))
          = length (required_patients df_patients)) as Hlen
    by (rewrite to_datetime_length, length_fmap; done).
  revert Hbase Hlen.
  generalize (to_datetime (BPatient.date_of_birth <$> required_patients df_patients)).
  generalize (required_patients df_patients). clear df_patients.
  intros rows dob. revert rows dob.
  induction base as [|r base IH]; intros [|p rows] [|d dob] Hall Hlen;
    simplify_eq/=; try by inversion Hall.
  apply Forall2_cons in Hall as [(t & -> & ->) Hall]. simpl. f_equal.
  by eapply IH.
Qed.

Lemma transform_patients_nonempty ts df_patients df_encounters df_payers :
  _transform_patients ts df_patients df_encounters df_payers ≠ [] →
  transform_patients_try ts df_patients df_encounters df_payers
    = inr (_transform_patients ts df_patients df_encounters df_payers).
Proof.
  unfold _transform_patients. destruct (decide (df_patients = [])); [done|].
  by destruct (transform_patients_try ts df_patients df_encounters df_payers).
Qed.

End PatientRows.

(** ** Patients and their payers *)

(** X1: with an empty encounters frame and a payers frame that is not
    empty, the patient transform returns the empty table whatever the
    patients are: no [payer_id] column was merged in, the merge with the
    payers raises, and the exception handler returns an empty frame. *)
Theorem patients_lost_without_encounters (P : Pandas) ts df_patients df_payers :
  df_payers ≠ [] →
  (∃ e, transform_patients_try ts df_patients [] df_payers = inl e)
  ∧ _transform_patients ts df_patients [] df_payers = [].
Proof.
  intros Hpayers. unfold _transform_patients, transform_patients_try.
  destruct (patients_base ts df_patients) as [e|base]; simpl.
  - split; [by exists e|]. by destruct (decide (df_patients = [])).
  - rewrite decide_False by done. simpl. split; [by eexists|].
    by destruct (decide (df_patients = [])).
Qed.

Lemma patients_lost_without_encounters_witness :
  (∃ e, @transform_patients_try Iso.pandas 0
          [BPatient.mk (Some "p1") (Some "ada") (Some "king") (Some "2000-01-01")
             (Some "F")]
          [] [BPayer.mk (Some "P1") (Some "Medicare")] = inl e)
  ∧ @_transform_patients Iso.pandas 0
      [BPatient.mk (Some "p1") (Some "ada") (Some "king") (Some "2000-01-01") (Some "F")]
      [] [BPayer.mk (Some "P1") (Some "Medicare")] = [].
Proof.
  apply (patients_lost_without_encounters Iso.pandas). discriminate.
Defined.

(** X2: with a payers frame that is not empty, the payer id of a patient
    row is that of one of the patient's encounters, one that no other
    encounter of the patient follows in the order of the sort (ascending
    dates, encounters without a date last); a patient without an encounter
    has a null payer id. *)
Theorem payer_id_from_last_sorted_encounter (P : Pandas)
    ts df_patients df_encounters df_payers r :
  r ∈ _transform_patients ts df_patients df_encounters df_payers →
  df_payers ≠ [] →
  (∃ m, m ∈ dated_encounters df_encounters
      ∧ PayerMap.patient_id m = SPatient.patient_id r
      ∧ SPatient.payer_id r = PayerMap.payer_id m
      ∧ ∀ m', m' ∈ dated_encounters df_encounters →
          PayerMap.patient_id m' = SPatient.patient_id r →
          NaT_last_le (PayerMap.encounter_date m') (PayerMap.encounter_date m))
  ∨ (SPatient.payer_id r = None
     ∧ ∀ m, m ∈ dated_encounters df_encounters →
         PayerMap.patient_id m ≠ SPatient.patient_id r).
Proof.
  intros Hr Hpayers.
  assert (_transform_patients ts df_patients df_encounters df_payers ≠ []) as Hne
    by (intros Heq; rewrite Heq in Hr; by apply elem_of_nil in Hr).
  apply transform_patients_nonempty in Hne.
  destruct (transform_patients_payer _ _ _ _ _ _ Hne Hr) as [_ Hpay].
  destruct (Hpay Hpayers) as [[(m & Hm & Hid & Hpid)|[Hnone Hno]] _].
  - left. apply patient_payer_map_last in Hm as [Hm Hlast].
    exists m. repeat split; try done. intros m' Hm' Hid'. apply Hlast; [done|].
    by rewrite Hid.
  - right. split; [done|]. intros m Hm Hid.
    destruct (patient_payer_map_covers _ _ Hm) as (m' & Hm' & Hid').
    apply (Hno m' Hm'). by rewrite Hid'.
Qed.

Lemma payer_id_from_last_sorted_encounter_witness :
  let ts := Iso.days_from_civil 2024 6 1 * NS_PER_DAY in
  let enc := λ id payer date,
    BEncounter.mk (Some id) (Some "p1") None (Some payer) (Some date) None
      (Some "wellness") (Some "10") (Some "5") in
  let df_encounters := [enc "e1" "P1" "2024-03-01"; enc "e2" "P2" "2024-04-01"] in
  let r := SPatient.mk (Some "p1") (Some "Ada") (Some "King")
             (Some (Iso.days_from_civil 2000 1 1 * NS_PER_DAY)) (Some "Female")
             24 (Some "P2") (Some "Aetna") in
  (∃ m, m ∈ @dated_encounters Iso.pandas df_encounters
      ∧ PayerMap.patient_id m = SPatient.patient_id r
      ∧ SPatient.payer_id r = PayerMap.payer_id m
      ∧ ∀ m', m' ∈ @dated_encounters Iso.pandas df_encounters →
          PayerMap.patient_id m' = SPatient.patient_id r →
          NaT_last_le (PayerMap.encounter_date m') (PayerMap.encounter_date m))
  ∨ (SPatient.payer_id r = None
     ∧ ∀ m, m ∈ @dated_encounters Iso.pandas df_encounters →
         PayerMap.patient_id m ≠ SPatient.patient_id r).
Proof.
  intros ts enc df_encounters r.
  apply (payer_id_from_last_sorted_encounter Iso.pandas ts
    [BPatient.mk (Some "p1") (Some "ada") (Some "king") (Some "2000-01-01") (Some "F")]
    df_encounters
    [BPayer.mk (Some "P1") (Some "Medicare"); BPayer.mk (Some "P2") (Some "Aetna")]).
  - vm_compute. apply list_elem_of_here.
  - discriminate.
Defined.

(** X3: the payer name of a patient row is never null. Without a payers
    frame it is the sentinel and the payer id is null; otherwise it is the
    name of a payer whose id is the patient's payer id, id and name both
    non-null, or the sentinel when the payers hold no such row. *)
Theorem payer_name_or_sentinel (P : Pandas)
    ts df_patients df_encounters df_payers r :
  r ∈ _transform_patients ts df_patients df_encounters df_payers →
  is_Some (SPatient.payer_name r)
  ∧ (df_payers = [] →
       SPatient.payer_id r = None ∧ SPatient.payer_name r = Some DEFAULT_PAYER)
  ∧ (df_payers ≠ [] →
       (∃ p name, p ∈ df_payers
          ∧ BPayer.payer_id p = SPatient.payer_id r
          ∧ is_Some (SPatient.payer_id r)
          ∧ BPayer.payer_name p = Some name
          ∧ SPatient.payer_name r = Some name)
       ∨ (SPatient.payer_name r = Some DEFAULT_PAYER
          ∧ ∀ p, p ∈ df_payers →
              is_Some (BPayer.payer_id p) → is_Some (BPayer.payer_name p) →
              BPayer.payer_id p ≠ SPatient.payer_id r)).
Proof.
  intros Hr.
  assert (_transform_patients ts df_patients df_encounters df_payers ≠ []) as Hne
    by (intros Heq; rewrite Heq in Hr; by apply elem_of_nil in Hr).
  apply transform_patients_nonempty in Hne.
  destruct (transform_patients_payer _ _ _ _ _ _ Hne Hr) as [Hnone Hpay].
  split; [|split].
  - destruct (decide (df_payers = [])) as [He|Hn].
    + destruct (Hnone He) as [_ ->]. by eexists.
    + destruct (Hpay Hn) as [_ [(p & name & _ & _ & _ & _ & ->)|[-> _]]];
        by eexists.
  - done.
  - intros Hn. destruct (Hpay Hn) as [_ [(p & name & Hp & Hid & Hsome & Hname & Hr')
                                         |[Hname Hno]]].
    + left. exists p, name. repeat split; try done. by rewrite <- Hid.
    + right. split; [done|]. intros p Hp Hid Hnm. apply Hno.
      apply elem_of_dropna. split; [done|]. intros col Hcol.
      repeat (apply elem_of_cons in Hcol as [->|Hcol]; [done|]).
      by apply elem_of_nil in Hcol.
Qed.

Lemma payer_name_or_sentinel_witness :
  let r := SPatient.mk (Some "p1") (Some "Ada") (Some "King")
             (Some (Iso.days_from_civil 2000 1 1 * NS_PER_DAY)) (Some "Female")
             24 None (Some DEFAULT_PAYER) in
  let df_payers : list BPayer.t := [] in
  is_Some (SPatient.payer_name r)
  ∧ (df_payers = [] →
       SPatient.payer_id r = None ∧ SPatient.payer_name r = Some DEFAULT_PAYER)
  ∧ (df_payers ≠ [] →
       (∃ p name, p ∈ df_payers
          ∧ BPayer.payer_id p = SPatient.payer_id r
          ∧ is_Some (SPatient.payer_id r)
          ∧ BPayer.payer_name p = Some name
          ∧ SPatient.payer_name r = Some name)
       ∨ (SPatient.payer_name r = Some DEFAULT_PAYER
          ∧ ∀ p, p ∈ df_payers →
              is_Some (BPayer.payer_id p) → is_Some (BPayer.payer_name p) →
              BPayer.payer_id p ≠ SPatient.payer_id r)).
Proof.
  intros r df_payers.
  apply (payer_name_or_sentinel Iso.pandas (Iso.days_from_civil 2024 1 1 * NS_PER_DAY)
    [BPatient.mk (Some "p1") (Some "ada") (Some "king") (Some "2000-01-01") (Some "F")]
    [] df_payers).
  vm_compute. apply list_elem_of_here.
Defined.

(** X4: when the patient transform returns rows and no payer id occurs
    twice among the payers with a non-null id and name, it returns one row
    for each patient row that passes the required-field drop, in the order
    of the source: the payer enrichment adds and loses no patient. *)
Theorem one_row_per_surviving_patient (P : Pandas)
    ts df_patients df_encounters df_payers :
  _transform_patients ts df_patients df_encounters df_payers ≠ [] →
  NoDup (BPayer.payer_id <$> dropna [BPayer.payer_id; BPayer.payer_name] df_payers) →
  SPatient.patient_id <$> _transform_patients ts df_patients df_encounters df_payers
    = BPatient.patient_id <$> required_patients df_patients.
Proof.
  intros Hne Hnd. apply transform_patients_nonempty in Hne.
  revert Hne. generalize (_transform_patients ts df_patients df_encounters df_payers).
  intros out. unfold transform_patients_try.
  destruct (patients_base ts df_patients) as [e|base] eqn:Hbase; [discriminate|].
  apply patients_base_ids in Hbase. rewrite <- Hbase. clear Hbase.
  set (df1 := if decide (df_encounters = []) then base else _).
  assert (SPatient.patient_id <$> df1 = SPatient.patient_id <$> base) as Hdf1.
  { unfold df1. destruct (decide (df_encounters = [])); [done|].
    apply fmap_merge_left_unique; [by intros []|apply patient_payer_map_NoDup]. }
  clearbody df1. rewrite <- Hdf1.
  destruct (decide (df_payers = [])).
  - intros [= <-]. rewrite <- list_fmap_compose. apply list_fmap_ext.
    by intros ? [] _.
  - destruct (decide (df_encounters = [])); [discriminate|]. intros [= <-].
    apply fmap_merge_left_unique; [by intros []|done].
Qed.

Lemma one_row_per_surviving_patient_witness :
  let ts := Iso.days_from_civil 2024 6 1 * NS_PER_DAY in
  let df_patients :=
    [BPatient.mk (Some "p1") (Some "ada") (Some "king") (Some "2000-01-01") (Some "F");
     BPatient.mk (Some "p2") None (Some "ross") (Some "1990-01-01") (Some "M");
     BPatient.mk (Some "p3") (Some "cy") (Some "young") (Some "1980-01-01") None] in
  let df_encounters :=
    [BEncounter.mk (Some "e1") (Some "p1") None (Some "P1") (Some "2024-03-01") None
       (Some "wellness") (Some "10") (Some "5")] in
  let df_payers := [BPayer.mk (Some "P1") (Some "Medicare");
                    BPayer.mk (Some "P2") None; BPayer.mk (Some "P2") (Some "Aetna")] in
  SPatient.patient_id <$>
    @_transform_patients Iso.pandas ts df_patients df_encounters df_payers
  = BPatient.patient_id <$> required_patients df_patients.
Proof.
  intros ts df_patients df_encounters df_payers.
  apply (one_row_per_surviving_patient Iso.pandas).
  - by vm_compute.
  - apply (bool_decide_unpack _). by vm_compute.
Defined.

(** ** Which candidate tables validation lets through *)

Lemma validated_iff_no_violation schema df :
  (∃ df', validate schema df = Validated df') ↔
  (∀ f i rs, f ∈ schema → ¬ violates f (coerce_frame schema df) i rs).
Proof.
  split.
  - intros [df' Hval] f i rs Hf Hviol.
    apply validate_Validated in Hval as [-> Hnil].
    destruct (violates_reported schema _ f i rs Hf Hviol) as (r & _ & Hin).
    rewrite Hnil in Hin. by apply elem_of_nil in Hin.
  - intros Hno. unfold validate.
    destruct (violations schema (coerce_frame schema df)) as [|e errs] eqn:E;
      [by eexists|].
    assert (e ∈ violations schema (coerce_frame schema df)) as He
      by (rewrite E; apply list_elem_of_here).
    apply elem_of_violations in He as (f & r & Hf & _ & _ & _ & Hv).
    by destruct (Hno f _ _ Hf Hv).
Qed.

Section CandidateFrames.
Context {R : Type} (to_row : R → gmap string value) (schema : list Field)
  (ts : Timestamp).

Lemma candidate_row_lookup (out : list R) i r' :
  coerce_frame schema (stamp ts (to_row <$> out)) !! i = Some r' ↔
  ∃ r, out !! i = Some r ∧ r' = loaded_row to_row schema ts r.
Proof.
  unfold coerce_frame, stamp. rewrite !list_lookup_fmap.
  destruct (out !! i) as [r|]; simpl; [|naive_solver].
  split; [intros [= <-]; by exists r|by intros (r0 & [= <-] & ->)].
Qed.

(** A key column without duplicates gives no uniqueness violation, and the
    other way round. *)
Lemma unique_key_no_violation (f : Field) (key : R → cell) (out : list R) :
  unique f = true →
  (∀ r, r ∈ out →
     loaded_row to_row schema ts r !! fname f = Some (str_value (key r))) →
  NoDup (key <$> out) ↔
  (∀ i, ¬ violates f (coerce_frame schema (stamp ts (to_row <$> out))) i NotUnique).
Proof.
  intros Hu Hcell.
  assert (∀ a b : cell, same_value (str_value a) (str_value b) ↔ a = b) as Hsv.
  { intros [a|] [b|]; simpl; naive_solver. }
  split.
  - intros Hnd i Hviol.
    inversion Hviol as [| | | |r0 v j r1 v1 _ Hj H0 Hv H1 Hv1 Hsame]; subst.
    apply candidate_row_lookup in H0 as (r & Hr & ->).
    apply candidate_row_lookup in H1 as (r' & Hr' & ->).
    rewrite Hcell in Hv by by eapply list_elem_of_lookup_2.
    rewrite Hcell in Hv1 by by eapply list_elem_of_lookup_2.
    simplify_eq/=. apply Hsv in Hsame. destruct Hj.
    apply (NoDup_lookup (key <$> out) j i (key r)); [done|..];
      rewrite list_lookup_fmap; [rewrite Hr'|rewrite Hr]; simpl; congruence.
  - intros Hno. apply NoDup_alt. intros i j k Hi Hj.
    apply list_lookup_fmap_Some in Hi as (r & -> & Hr).
    apply list_lookup_fmap_Some in Hj as (r' & Hk & Hr').
    destruct (decide (i = j)) as [|Hne]; [done|]. destruct (Hno i).
    apply (violates_unique f _ i (loaded_row to_row schema ts r) (str_value (key r))
             j (loaded_row to_row schema ts r') (str_value (key r')));
      [done|done| | | | |by apply Hsv].
    + apply candidate_row_lookup. by exists r.
    + apply Hcell. by eapply list_elem_of_lookup_2.
    + apply candidate_row_lookup. by exists r'.
    + apply Hcell. by eapply list_elem_of_lookup_2.
Qed.

(** A candidate table is validated exactly when every field accepts every
    cell of its column and no unique column holds a value twice. *)
Lemma validated_iff_cells_ok (out : list R) :
  (∃ df', validate schema (stamp ts (to_row <$> out)) = Validated df') ↔
  (∀ r f, r ∈ out → f ∈ schema →
     cell_ok f (loaded_row to_row schema ts r !! fname f))
  ∧ (∀ f i, f ∈ schema →
       ¬ violates f (coerce_frame schema (stamp ts (to_row <$> out))) i NotUnique).
Proof.
  rewrite validated_iff_no_violation. split.
  - intros Hno. split; [|by intros f i Hf; apply Hno].
    intros r f Hr Hf. apply list_elem_of_lookup in Hr as [i Hi].
    assert (coerce_frame schema (stamp ts (to_row <$> out)) !! i
            = Some (loaded_row to_row schema ts r)) as Hrow
      by (apply candidate_row_lookup; by exists r).
    specialize (Hno f i).
    destruct (loaded_row to_row schema ts r !! fname f) as [v|] eqn:Hv;
      [|destruct (Hno ColumnMissing Hf); by eapply violates_missing].
    exists v. split; [done|]. split.
    + intros ->. destruct (nullable f) eqn:Hn; [done|].
      destruct (Hno NotNullable Hf). by eapply violates_null.
    + intros Hnn. split.
      * destruct (decide (has_type (ftype f) v)) as [|Ht]; [done|].
        destruct (Hno (WrongType (ftype f)) Hf). by eapply violates_type.
      * intros c Hc. destruct (decide (check_holds c v)) as [|Hck]; [done|].
        destruct (Hno (CheckFailed c) Hf). by eapply violates_check.
  - intros [Hok Hunique] f i rs Hf Hviol.
    assert (∃ r, out !! i = Some r
              ∧ coerce_frame schema (stamp ts (to_row <$> out)) !! i
                = Some (loaded_row to_row schema ts r)) as (r & Hr & Hrow).
    { assert (∃ r', coerce_frame schema (stamp ts (to_row <$> out)) !! i = Some r')
        as [r' Hr'] by (destruct Hviol; eauto).
      pose proof Hr' as Hr''. apply candidate_row_lookup in Hr'' as (r & Hr & ->).
      by exists r. }
    destruct (Hok r f (list_elem_of_lookup_2 _ _ _ Hr) Hf)
      as (v & Hv & Hnull & Hnn).
    destruct Hviol as [r0 H0 Hnone|r0 H0 Hv0 Hn|r0 v0 H0 Hv0 Hnn0 Ht
                      |r0 v0 c H0 Hv0 Hnn0 Hc Hck|r0 v0 j r1 v1 Hu Hj H0 Hv0 H1 Hv1 Hs];
      try (rewrite Hrow in H0; injection H0 as <-).
    + congruence.
    + rewrite Hv in Hv0. injection Hv0 as ->. rewrite Hnull in Hn; done.
    + rewrite Hv in Hv0. injection Hv0 as ->. by destruct (Hnn Hnn0).
    + rewrite Hv in Hv0. injection Hv0 as ->. destruct (Hnn Hnn0) as [_ Hall].
      by destruct Hck; apply Hall.
    + apply (Hunique f i Hf).
      by eapply (violates_unique f _ i _ v0 j r1 v1).
Qed.

End CandidateFrames.

(** The cell of a loaded row, by evaluation of the schema on the column name. *)
Ltac cell_lookup :=
  unfold loaded_row; rewrite coerce_row_lookup; vm_compute; reflexivity.

(** A cell that is not null, of the declared type, under no check. *)
Ltac plain_cell_ok :=
  eexists; split; [cell_lookup|];
  split; [try done; intros [=]|intros _; split; [exact I|]];
  intros c Hc; by apply elem_of_nil in Hc.

Ltac not_key_field Hviol :=
  inversion Hviol as [| | | |? ? ? ? ? Hu]; discriminate Hu.

Lemma transform_payers_rows df_payers r :
  r ∈ _transform_payers df_payers →
  ∃ id name, r = SPayer.mk (Some id) (Some name).
Proof.
  unfold _transform_payers. destruct (decide (df_payers = []));
    [by intros ?%elem_of_nil|].
  intros (p & -> & Hp)%list_elem_of_fmap. apply elem_of_dropna in Hp as [_ Hcols].
  destruct (Hcols BPayer.payer_id) as [id ->]; [apply list_elem_of_here|].
  destruct (Hcols BPayer.payer_name) as [name ->];
    [apply list_elem_of_further, list_elem_of_here|].
  by exists id, name.
Qed.

(** X5: the payers table passes validation exactly when no payer id occurs
    twice among the payer rows whose id and name are both non-null; nothing
    else can get it rejected. *)
Theorem payers_validated_iff_ids_unique ts df_payers :
  (∃ df_validated,
     validate SilverPayersSchema (stamp ts (payer_row <$> _transform_payers df_payers))
       = Validated df_validated)
  ↔ NoDup (SPayer.payer_id <$> _transform_payers df_payers).
Proof.
  rewrite validated_iff_cells_ok.
  pose proof (unique_key_no_violation payer_row SilverPayersSchema ts
    (field "payer_id" DStr false true false []) SPayer.payer_id
    (_transform_payers df_payers) eq_refl) as Hkey.
  rewrite Hkey by (intros [id name] _; cell_lookup). clear Hkey.
  split.
  - intros [_ Hunique] i. apply Hunique, list_elem_of_here.
  - intros Hunique. split.
    + intros r f Hr Hf. apply transform_payers_rows in Hr as (id & name & ->).
      repeat (apply elem_of_cons in Hf as [->|Hf]); [..|by apply elem_of_nil in Hf];
        plain_cell_ok.
    + intros f i Hf Hviol.
      repeat (apply elem_of_cons in Hf as [->|Hf]); [..|by apply elem_of_nil in Hf].
      * by apply (Hunique i).
      * not_key_field Hviol.
      * not_key_field Hviol.
Qed.

Lemma payers_validated_iff_ids_unique_witness :
  let df_payers := [BPayer.mk (Some "P1") (Some "Medicare"); BPayer.mk None (Some "x");
                    BPayer.mk (Some "P2") (Some "Aetna"); BPayer.mk (Some "P1") None] in
  ∃ df_validated,
    validate SilverPayersSchema
      (stamp 0 (payer_row <$> _transform_payers df_payers)) = Validated df_validated.
Proof.
  intros df_payers. apply (proj2 (payers_validated_iff_ids_unique 0 df_payers)).
  apply (bool_decide_unpack _). by vm_compute.
Defined.

(** A cell under no check: null where the field is nullable, or of the
    declared type. *)
Ltac unchecked_cell_ok :=
  eexists; split; [cell_lookup|];
  split; [first [done|intros [=]]|];
  intros Hnn; first [by destruct Hnn|split; [exact I|]];
  intros c Hc; by apply elem_of_nil in Hc.

Section TransactionsTable.
Context `{Pandas}.

Lemma transform_claims_transactions_rows df_trans r :
  r ∈ _transform_claims_transactions df_trans →
  ∃ id claim date amount code type,
    r = STransaction.mk (Some id) (Some claim) (Some date) amount code type.
Proof.
  unfold _transform_claims_transactions. destruct (decide (df_trans = []));
    [by intros ?%elem_of_nil|].
  intros ([t d] & -> & Ht)%list_elem_of_fmap.
  apply list_elem_of_filter in Ht as [([id Hid] & [claim Hclaim] & [date ->]) _].
  simpl. rewrite Hid, Hclaim. by eexists _, _, _, _, _, _.
Qed.

End TransactionsTable.

(** X6: the transactions table passes validation exactly when no
    transaction id occurs twice among the rows the transform keeps; no
    amount, code or type can get it rejected. *)
Theorem transactions_validated_iff_ids_unique (P : Pandas) ts df_trans :
  (∃ df_validated,
     validate SilverClaimsTransactionsSchema
       (stamp ts (transaction_row <$> _transform_claims_transactions df_trans))
       = Validated df_validated)
  ↔ NoDup (STransaction.transaction_id <$> _transform_claims_transactions df_trans).
Proof.
  rewrite validated_iff_cells_ok.
  pose proof (unique_key_no_violation transaction_row SilverClaimsTransactionsSchema ts
    (field "transaction_id" DStr false true false []) STransaction.transaction_id
    (_transform_claims_transactions df_trans) eq_refl) as Hkey.
  rewrite Hkey by (intros [] _; cell_lookup). clear Hkey.
  split.
  - intros [_ Hunique] i. apply Hunique, list_elem_of_here.
  - intros Hunique. split.
    + intros r f Hr Hf.
      apply transform_claims_transactions_rows in Hr
        as (id & claim & date & amount & [code|] & [type|] & ->);
      repeat (apply elem_of_cons in Hf as [->|Hf]);
        try (by apply elem_of_nil in Hf); unchecked_cell_ok.
    + intros f i Hf Hviol.
      repeat (apply elem_of_cons in Hf as [->|Hf]); [..|by apply elem_of_nil in Hf];
        first [by apply (Hunique i)|not_key_field Hviol].
Qed.

Lemma transactions_validated_iff_ids_unique_witness :
  let trans := λ id amount,
    BTransaction.mk (Some id) (Some "C1") (Some "2024-01-02") amount None
      (Some "charge") None None in
  let df_trans := [trans "T1" (Some "-5"); trans "T2" None; trans "T3" (Some "n/a")] in
  ∃ df_validated,
    validate SilverClaimsTransactionsSchema
      (stamp 0 (transaction_row <$> @_transform_claims_transactions Iso.pandas df_trans))
      = Validated df_validated.
Proof.
  intros trans df_trans.
  apply (proj2 (transactions_validated_iff_ids_unique Iso.pandas 0 df_trans)).
  apply (bool_decide_unpack _). by vm_compute.
Defined.

Section ClaimsTable.
Context `{Pandas}.

Lemma transform_claims_shape df_claims df_transactions r :
  r ∈ _transform_claims df_claims df_transactions →
  ∃ id patient provider start stop billed paid resp,
    r = SClaim.mk (Some id) (Some patient) provider (Some start) stop billed paid resp.
Proof.
  unfold _transform_claims. destruct (decide (df_claims = []));
    [by intros ?%elem_of_nil|].
  intros ([[c start] stop] & -> & Hc)%list_elem_of_fmap.
  apply list_elem_of_filter in Hc as [([id Hid] & [patient Hpat] & [t ->]) _].
  rewrite Hid, Hpat.
  destruct (if decide (df_transactions = []) then _ else _) as [[billed paid] resp].
  by eexists _, _, _, _, _, _, _, _.
Qed.

End ClaimsTable.

(** The cell of a total that is not negative passes the [ge=0] check. *)
Ltac ge0_cell_ok Hge :=
  eexists; split; [cell_lookup|];
  split; [intros [=]|intros _; split; [exact I|]];
  intros c Hc; apply list_elem_of_singleton in Hc as ->; exact Hge.

(** X7: the claims table passes validation exactly when no claim id occurs
    twice among the rows the transform keeps and none of the three totals of
    a row is negative. *)
Theorem claims_validated_iff (P : Pandas) ts df_claims df_transactions :
  (∃ df_validated,
     validate SilverClaimsSchema
       (stamp ts (claim_row <$> _transform_claims df_claims df_transactions))
       = Validated df_validated)
  ↔ NoDup (SClaim.claim_id <$> _transform_claims df_claims df_transactions)
    ∧ ∀ r, r ∈ _transform_claims df_claims df_transactions →
        (0 <= SClaim.total_billed_amount r)%Q
        ∧ (0 <= SClaim.total_paid_amount r)%Q
        ∧ (0 <= SClaim.patient_responsibility_amount r)%Q.
Proof.
  rewrite validated_iff_cells_ok.
  pose proof (unique_key_no_violation claim_row SilverClaimsSchema ts
    (field "claim_id" DStr false true false []) SClaim.claim_id
    (_transform_claims df_claims df_transactions) eq_refl) as Hkey.
  rewrite Hkey by (intros [] _; cell_lookup). clear Hkey.
  split.
  - intros [Hok Hunique]. split; [intros i; apply Hunique, list_elem_of_here|].
    intros r Hr.
    assert (∀ name q,
      field name DFloat false false true [Ge 0] ∈ SilverClaimsSchema →
      loaded_row claim_row SilverClaimsSchema ts r !! name = Some (VFloat q) →
      (0 <= q)%Q) as Hge.
    { intros name q Hf Hcell. destruct (Hok r _ Hr Hf) as (v & Hv & _ & Hnn).
      cbn [fname] in Hv. rewrite Hcell in Hv. injection Hv as <-.
      destruct Hnn as [_ Hchecks]; [done|].
      apply (Hchecks (Ge 0)), list_elem_of_here. }
    destruct r as [id patient provider start stop billed paid resp]. simpl.
    split; [|split].
    + apply (Hge "total_billed_amount"); [|cell_lookup].
      do 5 apply list_elem_of_further. apply list_elem_of_here.
    + apply (Hge "total_paid_amount"); [|cell_lookup].
      do 6 apply list_elem_of_further. apply list_elem_of_here.
    + apply (Hge "patient_responsibility_amount"); [|cell_lookup].
      do 7 apply list_elem_of_further. apply list_elem_of_here.
  - intros [Hunique Hge]. split.
    + intros r f Hr Hf. destruct (Hge r Hr) as (Hbilled & Hpaid & Hresp).
      apply transform_claims_shape in Hr
        as (id & patient & [provider|] & start & [stop|] & billed & paid & resp & ->);
      simpl in Hbilled, Hpaid, Hresp;
      repeat (apply elem_of_cons in Hf as [->|Hf]);
        try (by apply elem_of_nil in Hf);
        first [unchecked_cell_ok|ge0_cell_ok Hbilled|ge0_cell_ok Hpaid
              |ge0_cell_ok Hresp].
    + intros f i Hf Hviol.
      repeat (apply elem_of_cons in Hf as [->|Hf]); [..|by apply elem_of_nil in Hf];
        first [by apply (Hunique i)|not_key_field Hviol].
Qed.

Lemma claims_validated_iff_witness :
  let df_claims := [BClaim.mk (Some "C1") (Some "p1") None (Some "2024-01-01") None] in
  let df_transactions :=
    [BTransaction.mk (Some "T1") (Some "C1") (Some "2024-01-02") (Some "10") None None
       (Some "4") (Some "6")] in
  ∃ df_validated,
    validate SilverClaimsSchema
      (stamp 0 (claim_row <$> @_transform_claims Iso.pandas df_claims df_transactions))
      = Validated df_validated.
Proof.
  intros df_claims df_transactions.
  apply (proj2 (claims_validated_iff Iso.pandas 0 df_claims df_transactions)).
  split; [apply (bool_decide_unpack _); by vm_compute|].
  intros r Hr. vm_compute in Hr. apply list_elem_of_singleton in Hr as ->.
  by vm_compute.
Defined.

Ltac in_list :=
  solve [repeat first [apply list_elem_of_here|apply list_elem_of_further]].

(** A cell that is not null, of the declared type, under two checks that
    both hold. *)
Ltac twice_checked_cell_ok H1 H2 :=
  eexists; split; [cell_lookup|];
  split; [intros [=]|intros _; split; [exact I|]];
  intros c Hc; apply elem_of_cons in Hc as [->|Hc];
    [exact H1|apply list_elem_of_singleton in Hc as ->; exact H2].

Section EncountersTable.
Context `{Pandas}.

Lemma transform_encounters_shape df_encounters r :
  r ∈ _transform_encounters df_encounters →
  ∃ id patient provider payer start stop type los cost coverage,
    r = SEncounter.mk (Some id) (Some patient) provider payer (Some start) stop
          (Some type) los cost coverage
    ∧ 0 ≤ los.
Proof.
  unfold _transform_encounters. destruct (decide (df_encounters = []));
    [by intros ?%elem_of_nil|].
  intros ([[e start] stop] & -> & He)%list_elem_of_fmap.
  apply list_elem_of_filter in He as [([id Hid] & [patient Hpat] & [t ->]) _].
  simpl. rewrite Hid, Hpat. eexists _, _, _, _, _, _, _, _, _, _. split; [done|].
  destruct stop as [d|]; [|done]. simpl. case_decide; lia.
Qed.

End EncountersTable.

(** X8: the encounters table passes validation exactly when no encounter id
    occurs twice among the rows the transform keeps and no row has a
    negative claim cost or payer coverage; the check on the length of stay
    can never fail, the transform having clamped it. *)
Theorem encounters_validated_iff (P : Pandas) ts df_encounters :
  (∃ df_validated,
     validate SilverEncountersSchema
       (stamp ts (encounter_row <$> _transform_encounters df_encounters))
       = Validated df_validated)
  ↔ NoDup (SEncounter.encounter_id <$> _transform_encounters df_encounters)
    ∧ ∀ r, r ∈ _transform_encounters df_encounters →
        (0 <= SEncounter.total_claim_cost r)%Q
        ∧ (0 <= SEncounter.payer_coverage r)%Q.
Proof.
  rewrite validated_iff_cells_ok.
  pose proof (unique_key_no_violation encounter_row SilverEncountersSchema ts
    (field "encounter_id" DStr false true false []) SEncounter.encounter_id
    (_transform_encounters df_encounters) eq_refl) as Hkey.
  rewrite Hkey by (intros [] _; cell_lookup). clear Hkey.
  split.
  - intros [Hok Hunique]. split; [intros i; apply Hunique, list_elem_of_here|].
    intros r Hr.
    assert (∀ name q,
      field name DFloat false false true [Ge 0] ∈ SilverEncountersSchema →
      loaded_row encounter_row SilverEncountersSchema ts r !! name = Some (VFloat q) →
      (0 <= q)%Q) as Hge.
    { intros name q Hf Hcell. destruct (Hok r _ Hr Hf) as (v & Hv & _ & Hnn).
      cbn [fname] in Hv. rewrite Hcell in Hv. injection Hv as <-.
      destruct Hnn as [_ Hchecks]; [done|].
      apply (Hchecks (Ge 0)), list_elem_of_here. }
    destruct r. simpl. split.
    + apply (Hge "total_claim_cost"); [in_list|cell_lookup].
    + apply (Hge "payer_coverage"); [in_list|cell_lookup].
  - intros [Hunique Hge]. split.
    + intros r f Hr Hf. destruct (Hge r Hr) as (Hcost & Hcoverage).
      apply transform_encounters_shape in Hr
        as (id & patient & [provider|] & [payer|] & start & [stop|] & type
            & los & cost & coverage & -> & Hlos);
      simpl in Hcost, Hcoverage;
      (assert (0 <= inject_Z los)%Q as Hstay by (unfold Qle; simpl; lia));
      repeat (apply elem_of_cons in Hf as [->|Hf]);
        try (by apply elem_of_nil in Hf);
        first [unchecked_cell_ok|ge0_cell_ok Hcost|ge0_cell_ok Hcoverage
              |ge0_cell_ok Hstay].
    + intros f i Hf Hviol.
      repeat (apply elem_of_cons in Hf as [->|Hf]); [..|by apply elem_of_nil in Hf];
        first [by apply (Hunique i)|not_key_field Hviol].
Qed.

Lemma encounters_validated_iff_witness :
  let df_encounters :=
    [BEncounter.mk (Some "e1") (Some "p1") None (Some "P1") (Some "2024-03-05")
       (Some "2024-03-01") (Some "inpatient") (Some "10") None] in
  ∃ df_validated,
    validate SilverEncountersSchema
      (stamp 0 (encounter_row <$> @_transform_encounters Iso.pandas df_encounters))
      = Validated df_validated.
Proof.
  intros df_encounters.
  apply (proj2 (encounters_validated_iff Iso.pandas 0 df_encounters)).
  split; [apply (bool_decide_unpack _); by vm_compute|].
  intros r Hr. vm_compute in Hr. apply list_elem_of_singleton in Hr as ->.
  by vm_compute.
Defined.

Section PatientsTable.
Context `{Pandas}.

Lemma transform_patients_shape ts df_patients df_encounters df_payers r :
  r ∈ _transform_patients ts df_patients df_encounters df_payers →
  ∃ id first last born g a payer name,
    r = SPatient.mk (Some id) (Some first) (Some last) (Some born) (Some g) a
          payer (Some name).
Proof.
  intros Hr.
  assert (_transform_patients ts df_patients df_encounters df_payers ≠ []) as Hne
    by (intros Heq; rewrite Heq in Hr; by apply elem_of_nil in Hr).
  apply transform_patients_nonempty in Hne as Htry.
  destruct (transform_patients_try_rows _ _ _ _ _ Htry) as (base & Hbase & Hto & _).
  destruct (Hto r Hr) as (r0 & Hr0 & Hsame).
  destruct (patients_base_rows _ _ _ Hbase) as [Hrows _].
  destruct (Hrows r0 Hr0) as (p & d & Hp & (born & -> & ->)).
  apply elem_of_dropna in Hp as [_ Hcols].
  assert (is_Some (BPatient.patient_id p)) as [id Hid] by (apply Hcols; in_list).
  assert (is_Some (BPatient.first_name p)) as [first Hfirst]
    by (apply Hcols; in_list).
  assert (is_Some (BPatient.last_name p)) as [last Hlast] by (apply Hcols; in_list).
  assert (∃ name, SPatient.payer_name r = Some name) as [name Hname].
  { destruct (transform_patients_payer _ _ _ _ _ _ Htry Hr) as [Hempty Hsome].
    destruct (decide (df_payers = [])) as [Heq|Hneq].
    - destruct (Hempty Heq) as [_ ->]. by eexists.
    - destruct (Hsome Hneq) as [_ [(q & name & _ & _ & _ & _ & ->)|[-> _]]];
        by eexists. }
  destruct r as [rid rfn rln rdob rg ra rpy rpn].
  destruct Hsame as (Hi & Hf & Hl & Hd & Hg & Ha).
  cbn [SPatient.patient_id SPatient.first_name SPatient.last_name
       SPatient.date_of_birth SPatient.gender SPatient.age SPatient.payer_name]
    in Hi, Hf, Hl, Hd, Hg, Ha, Hname.
  rewrite Hid in Hi. rewrite Hfirst in Hf. rewrite Hlast in Hl. simpl in Hf, Hl.
  subst. by eexists _, _, _, _, _, _, _, _.
Qed.

End PatientsTable.

(** X9: the patients table passes validation exactly when no patient id
    occurs twice among the rows of the transform, every gender is one of
    the four the schema lists and every age lies between 0 and 120. *)
Theorem patients_validated_iff (P : Pandas) ts df_patients df_encounters df_payers :
  (∃ df_validated,
     validate SilverPatientSchema
       (stamp ts (patient_row
                    <$> _transform_patients ts df_patients df_encounters df_payers))
       = Validated df_validated)
  ↔ NoDup (SPatient.patient_id
             <$> _transform_patients ts df_patients df_encounters df_payers)
    ∧ ∀ r, r ∈ _transform_patients ts df_patients df_encounters df_payers →
        (∃ g, SPatient.gender r = Some g
              ∧ g ∈ ["Male"; "Female"; "Other"; "Unknown"])
        ∧ 0 ≤ SPatient.age r ≤ 120.
Proof.
  rewrite validated_iff_cells_ok.
  pose proof (unique_key_no_violation patient_row SilverPatientSchema ts
    (field "patient_id" DStr false true false []) SPatient.patient_id
    (_transform_patients ts df_patients df_encounters df_payers) eq_refl) as Hkey.
  rewrite Hkey by (intros [] _; cell_lookup). clear Hkey.
  split.
  - intros [Hok Hunique]. split; [intros i; apply Hunique, list_elem_of_here|].
    intros r Hr.
    assert (∀ f v c, f ∈ SilverPatientSchema →
      loaded_row patient_row SilverPatientSchema ts r !! fname f = Some v →
      v ≠ VNull → c ∈ checks f → check_holds c v) as Hchecks.
    { intros f v c Hf Hcell Hnn Hc. destruct (Hok r f Hr Hf) as (v' & Hv & _ & Hall).
      rewrite Hcell in Hv. injection Hv as <-. by apply Hall. }
    apply transform_patients_shape in Hr
      as (id & first & last & born & g & a & payer & name & ->).
    simpl. split.
    + exists g. split; [done|].
      apply (Hchecks
        (field "gender" DStr false false false
           [IsIn ["Male"; "Female"; "Other"; "Unknown"]])
        (VStr g) (IsIn ["Male"; "Female"; "Other"; "Unknown"]));
        [in_list|cell_lookup|done|in_list].
    + assert (check_holds (Ge 0) (VInt a)) as Hge
        by (apply (Hchecks (field "age" DInt false false true [Ge 0; Le 120]));
            [in_list|cell_lookup|done|in_list]).
      assert (check_holds (Le 120) (VInt a)) as Hle
        by (apply (Hchecks (field "age" DInt false false true [Ge 0; Le 120]));
            [in_list|cell_lookup|done|in_list]).
      revert Hge Hle. unfold check_holds, Qle. simpl. lia.
  - intros [Hunique Hrange]. split.
    + intros r f Hr Hf. destruct (Hrange r Hr) as [(g' & Hg & Hin) [H0 H120]].
      apply transform_patients_shape in Hr
        as (id & first & last & born & g & a & [payer|] & name & ->);
      simpl in Hg, H0, H120; injection Hg as ->;
      (assert (0 <= inject_Z a)%Q as Hge by (unfold Qle; simpl; lia));
      (assert (inject_Z a <= 120)%Q as Hle by (unfold Qle; simpl; lia));
      repeat (apply elem_of_cons in Hf as [->|Hf]);
        try (by apply elem_of_nil in Hf);
        first [unchecked_cell_ok|ge0_cell_ok Hin|twice_checked_cell_ok Hge Hle].
    + intros f i Hf Hviol.
      repeat (apply elem_of_cons in Hf as [->|Hf]); [..|by apply elem_of_nil in Hf];
        first [by apply (Hunique i)|not_key_field Hviol].
Qed.

Lemma patients_validated_iff_witness :
  let ts := Iso.days_from_civil 2024 6 1 * NS_PER_DAY in
  let df_patients :=
    [BPatient.mk (Some "p1") (Some "ada") (Some "king") (Some "2000-01-01")
       (Some "F")] in
  ∃ df_validated,
    validate SilverPatientSchema
      (stamp ts (patient_row <$> @_transform_patients Iso.pandas ts df_patients [] []))
      = Validated df_validated.
Proof.
  intros ts df_patients.
  apply (proj2 (patients_validated_iff Iso.pandas ts df_patients [] [])).
  split; [apply (bool_decide_unpack _); by vm_compute|].
  intros r Hr. vm_compute in Hr. apply list_elem_of_singleton in Hr as ->.
  split; [exists "Female"; split; [done|in_list]|simpl; lia].
Defined.

(** ** What a run leaves in the store *)

Section StoreFailures.
Context {C : Type} (name : C → string) (outcome : C → load_outcome).

(** With distinct table names, a table that is not loaded keeps what the
    store held under its name. *)
Lemma published_not_loaded (cands : list C) (m : gmap string frame) c :
  NoDup (name <$> cands) → c ∈ cands →
  (∀ df_validated, outcome c ≠ Loaded df_validated) →
  foldl (λ m c, match outcome c with
                | Loaded df_validated => <[name c := df_validated]> m
                | _ => m
                end) m cands !! name c = m !! name c.
Proof.
  revert m. induction cands as [|c' cands IH]; intros m Hnd Hc Ho; simpl.
  - done.
  - rewrite fmap_cons in Hnd. apply NoDup_cons in Hnd as [Hnot Hnd].
    apply elem_of_cons in Hc as [->|Hc].
    + etrans; [by apply (published_untouched name outcome)|].
      destruct (outcome c') eqn:E; try done. by destruct (Ho df_validated).
    + rewrite IH by done. destruct (outcome c') eqn:E; try done.
      rewrite lookup_insert_ne; [done|]. intros Heq. destruct Hnot.
      rewrite Heq. by apply list_elem_of_fmap_2.
Qed.

End StoreFailures.

Lemma coerce_row_date schema (r : gmap string value) k t :
  r !! k = Some (VDate t) → coerce_row schema r !! k = Some (VDate t).
Proof.
  intros Hr. rewrite coerce_row_lookup, Hr.
  induction schema as [|f schema IH]; simpl; [done|].
  destruct (coerce f); [|done]. destruct (decide (fname f = k)); [|done].
  rewrite IH. by destruct (ftype f).
Qed.

(** X10: a table whose candidate frame is empty, or is rejected by the
    validation, keeps after the run what the store held under its name
    before it: the old rows stay in place next to the tables the run
    refreshed. *)
Theorem failed_table_keeps_old_contents (P : Pandas) self df table_name schema :
  (df, table_name, schema) ∈ candidates (engine self) (processing_timestamp self) →
  df = [] ∨ (∃ failure_cases,
               validate schema (stamp (processing_timestamp self) df)
               = SchemaErrors failure_cases) →
  silver (engine (load_silver self)) !! table_name
  = silver (engine self) !! table_name.
Proof.
  intros Hc Hfail. rewrite load_silver_candidates.
  destruct (load_all_outcomes (candidates (engine self) (processing_timestamp self))
              self) as (_ & _ & _ & _ & Hsilver).
  rewrite Hsilver.
  apply (published_not_loaded (λ c : frame * string * list Field, c.1.2)
           (λ '(df, table_name, schema),
              attempt (engine self) (processing_timestamp self) df table_name schema)
           _ _ (df, table_name, schema)); [apply candidates_names|done|].
  intros df_validated Ho. destruct Hfail as [->|[failure_cases Herr]].
  - unfold attempt in Ho. by rewrite decide_True in Ho.
  - apply attempt_Loaded in Ho. congruence.
Qed.

Lemma failed_table_keeps_old_contents_witness :
  let stale : frame := [{["payer_id" := VStr "old"]}] in
  let e := {|
    bronze_patients := None; bronze_claims := None;
    bronze_claims_transactions := None; bronze_encounters := None;
    bronze_payers := Some [BPayer.mk (Some "P1") (Some "Medicare");
                           BPayer.mk (Some "P1") (Some "Medicaid")];
    create_schema_raises := λ _, false; to_sql_raises := λ _, false;
    silver := {["silver_payers_dim" := stale]} |} in
  let self := {| engine := e; processing_timestamp := 0;
                 stats := {| loaded_tables := 0; total_records := 0;
                             failed_tables := [] |};
                 log := [] |} in
  silver (engine (@load_silver Iso.pandas self)) !! "silver_payers_dim"
  = silver (engine self) !! "silver_payers_dim".
Proof.
  intros stale e self.
  apply (failed_table_keeps_old_contents Iso.pandas self
           (payer_row <$> _transform_payers
              [BPayer.mk (Some "P1") (Some "Medicare");
               BPayer.mk (Some "P1") (Some "Medicaid")])
           "silver_payers_dim" SilverPayersSchema).
  - do 4 apply list_elem_of_further. apply list_elem_of_here.
  - right. eexists. by vm_compute.
Defined.

(** X11: a run writes to no table of the store but the five Silver tables:
    whatever else the store holds is there unchanged when the run ends. *)
Theorem run_touches_only_the_five_tables (P : Pandas) self table_name :
  table_name ∉ ["silver_patients_dim"; "silver_claims_fact";
                "silver_claims_transactions_fact"; "silver_encounters_fact";
                "silver_payers_dim"] →
  silver (engine (load_silver self)) !! table_name
  = silver (engine self) !! table_name.
Proof.
  intros Hnot. rewrite load_silver_candidates.
  destruct (load_all_outcomes (candidates (engine self) (processing_timestamp self))
              self) as (_ & _ & _ & _ & Hsilver).
  rewrite Hsilver.
  apply (published_untouched (λ c : frame * string * list Field, c.1.2)
           (λ '(df, table_name, schema),
              attempt (engine self) (processing_timestamp self) df table_name schema)).
  exact Hnot.
Qed.

Lemma run_touches_only_the_five_tables_witness :
  let e := {|
    bronze_patients := None; bronze_claims := None;
    bronze_claims_transactions := None; bronze_encounters := None;
    bronze_payers := Some [BPayer.mk (Some "P1") (Some "Medicare")];
    create_schema_raises := λ _, false; to_sql_raises := λ _, false;
    silver := {["gold_payers" := []]} |} in
  let self := {| engine := e; processing_timestamp := 0;
                 stats := {| loaded_tables := 0; total_records := 0;
                             failed_tables := [] |};
                 log := [] |} in
  silver (engine (@load_silver Iso.pandas self)) !! "gold_payers"
  = silver (engine self) !! "gold_payers".
Proof.
  intros e self. apply (run_touches_only_the_five_tables Iso.pandas self).
  intros Hin. repeat (apply elem_of_cons in Hin as [Hin|Hin]; [discriminate|]).
  by apply elem_of_nil in Hin.
Defined.

(** X12: every table the log of a fresh run reports as loaded is in the
    store when the run ends, with as many rows as its candidate frame had,
    which is the number the log gives, and each of its rows carries the
    processing timestamp of the run. *)
Theorem loaded_table_is_stamped (P : Pandas) e now self table_name n :
  main (Some e) now = Some self →
  InfoLoaded table_name n ∈ log self →
  ∃ df schema df_validated,
    (df, table_name, schema) ∈ candidates e now
    ∧ silver (engine self) !! table_name = Some df_validated
    ∧ length df_validated = length df
    ∧ n = length df
    ∧ ∀ r, r ∈ df_validated →
        r !! "silver_processing_timestamp" = Some (VDate now).
Proof.
  intros Hrun Hin.
  destruct (main_loaded _ _ _ _ _ Hrun Hin)
    as (df & schema & df_validated & Hc & Hval & -> & Hstore).
  exists df, schema, df_validated. split; [done|]. split; [done|].
  apply validate_Validated in Hval as [-> _].
  unfold coerce_frame, stamp. rewrite !length_fmap. split; [done|]. split; [done|].
  intros r Hr.
  apply list_elem_of_fmap in Hr as (r1 & -> & Hr1).
  apply list_elem_of_fmap in Hr1 as (r0 & -> & _).
  apply coerce_row_date, lookup_insert_eq.
Qed.

Lemma loaded_table_is_stamped_witness :
  let e := {|
    bronze_patients := None; bronze_claims := None;
    bronze_claims_transactions := None; bronze_encounters := None;
    bronze_payers := Some [BPayer.mk (Some "P1") (Some "Medicare")];
    create_schema_raises := λ _, false; to_sql_raises := λ _, false;
    silver := ∅ |} in
  let self := {| engine := e; processing_timestamp := 7;
                 stats := {| loaded_tables := 0; total_records := 0;
                             failed_tables := [] |};
                 log := [] |} in
  ∃ df schema df_validated,
    (df, "silver_payers_dim", schema) ∈ @candidates Iso.pandas e 7
    ∧ silver (engine (@load_silver Iso.pandas self)) !! "silver_payers_dim"
      = Some df_validated
    ∧ length df_validated = length df
    ∧ 1%nat = length df
    ∧ ∀ r, r ∈ df_validated → r !! "silver_processing_timestamp" = Some (VDate 7).
Proof.
  intros e self.
  apply (loaded_table_is_stamped Iso.pandas e 7 (@load_silver Iso.pandas self)
           "silver_payers_dim" 1); [reflexivity|].
  apply (list_elem_of_lookup_2 _ 4%nat). by vm_compute.
Defined.

(** ** The statistics of a run *)

Lemma load_to_silver_statistics self df table_name schema :
  let self' := _load_to_silver self df table_name schema in
  ∃ entry, log self' = (log self ++ [entry])%list
    ∧ total_records (stats self')
      = (total_records (stats self) + records_logged entry)%nat
    ∧ loaded_tables (stats self')
      = (loaded_tables (stats self) + loads_logged entry)%nat
    ∧ (loaded_tables (stats self') + length (failed_tables (stats self'))
       = loaded_tables (stats self) + length (failed_tables (stats self)) + 1)%nat.
Proof.
  unfold _load_to_silver.
  destruct (decide (df = []));
    [|destruct (create_schema_raises (engine self) table_name);
      [|destruct (validate schema (stamp (processing_timestamp self) df));
        [destruct (to_sql_raises (engine self) table_name)|]]];
    simpl; eexists; (split; [reflexivity|]); rewrite ?length_app; simpl;
    repeat split; lia.
Qed.

Lemma load_all_statistics (cands : list (frame * string * list Field)) self :
  let self' := foldl (λ s '(df, table_name, schema),
                 _load_to_silver s df table_name schema) self cands in
  ∃ entries, log self' = (log self ++ entries)%list
    ∧ length entries = length cands
    ∧ total_records (stats self')
      = (total_records (stats self) + sum_list (records_logged <$> entries))%nat
    ∧ loaded_tables (stats self')
      = (loaded_tables (stats self) + sum_list (loads_logged <$> entries))%nat
    ∧ (loaded_tables (stats self') + length (failed_tables (stats self'))
       = loaded_tables (stats self) + length (failed_tables (stats self))
         + length cands)%nat.
Proof.
  revert self. induction cands as [|[[df name] schema] cands IH]; intros self.
  - exists []. simpl. rewrite app_nil_r. repeat split; lia.
  - destruct (load_to_silver_statistics self df name schema)
      as (entry & Hlog & Hrec & Hload & Hcount).
    destruct (IH (_load_to_silver self df name schema))
      as (entries & IHlog & IHlen & IHrec & IHload & IHcount).
    exists (entry :: entries). cbn [foldl].
    split; [by rewrite IHlog, Hlog, <- (assoc_L app)|].
    rewrite !fmap_cons. simpl in *. repeat split; lia.
Qed.

Section FreshRun.
Context `{Pandas}.

Lemma main_statistics create_engine now self :
  main create_engine now = Some self →
  length (log self) = 5%nat
  ∧ total_records (stats self) = sum_list (records_logged <$> log self)
  ∧ loaded_tables (stats self) = sum_list (loads_logged <$> log self)
  ∧ (loaded_tables (stats self) + length (failed_tables (stats self)) = 5)%nat.
Proof.
  destruct create_engine as [e|]; [|discriminate].
  set (self0 := {| engine := e; processing_timestamp := now;
                   stats := {| loaded_tables := 0; total_records := 0;
                               failed_tables := [] |};
                   log := [] |}).
  change (main (Some e) now) with (Some (load_silver self0)).
  intros [= <-]. rewrite load_silver_candidates.
  destruct (load_all_statistics
              (candidates (engine self0) (processing_timestamp self0)) self0)
    as (entries & -> & Hlen & -> & -> & ->).
  change (log self0) with (@nil log_entry). rewrite app_nil_l.
  by repeat split.
Qed.

End FreshRun.

(** X13: when a fresh run ends its statistics agree with its log: the log
    has five entries, the count of loaded tables is the number of entries
    that report a load, and the total of records is the sum of the records
    those entries report. *)
Theorem statistics_agree_with_the_log (P : Pandas) create_engine now self :
  main create_engine now = Some self →
  length (log self) = 5%nat
  ∧ loaded_tables (stats self) = sum_list (loads_logged <$> log self)
  ∧ total_records (stats self) = sum_list (records_logged <$> log self).
Proof.
  intros Hrun. destruct (main_statistics _ _ _ Hrun) as (Hlen & Hrec & Hload & _).
  done.
Qed.

Lemma statistics_agree_with_the_log_witness :
  let e := {|
    bronze_patients := None;
    bronze_claims := Some
      [BClaim.mk (Some "C1") (Some "p1") None (Some "2024-01-01") None;
       BClaim.mk (Some "C2") (Some "p1") None (Some "2024-01-03") None];
    bronze_claims_transactions := None; bronze_encounters := None;
    bronze_payers := Some [BPayer.mk (Some "P1") (Some "Medicare")];
    create_schema_raises := λ _, false; to_sql_raises := λ _, false;
    silver := ∅ |} in
  let self := @load_silver Iso.pandas
    {| engine := e; processing_timestamp := 0;
       stats := {| loaded_tables := 0; total_records := 0; failed_tables := [] |};
       log := [] |} in
  length (log self) = 5%nat
  ∧ loaded_tables (stats self) = sum_list (loads_logged <$> log self)
  ∧ total_records (stats self) = sum_list (records_logged <$> log self).
Proof.
  intros e self.
  apply (statistics_agree_with_the_log Iso.pandas (Some e) 0 self). reflexivity.
Defined.

(** X14: the summary of a fresh run announces that all five transformations
    succeeded exactly when five tables were loaded, and lists failed tables
    exactly when fewer were. *)
Theorem summary_reports_success_iff_five_loaded (P : Pandas)
    create_engine now self :
  main create_engine now = Some self →
  (SummaryAllSucceeded ∈ _summarize_run self ↔ loaded_tables (stats self) = 5%nat)
  ∧ ((∃ names, SummaryFailed names ∈ _summarize_run self)
     ↔ (loaded_tables (stats self) < 5)%nat).
Proof.
  intros Hrun. destruct (main_statistics _ _ _ Hrun) as (_ & _ & _ & Hcount).
  unfold _summarize_run.
  destruct (decide (failed_tables (stats self) = [])) as [Heq|Hne].
  - rewrite Heq in Hcount. simpl in Hcount. split; split.
    + intros _. lia.
    + intros _. in_list.
    + intros [names Hin].
      repeat (apply elem_of_cons in Hin as [Hin|Hin]; [discriminate|]).
      by apply elem_of_nil in Hin.
    + lia.
  - assert (0 < length (failed_tables (stats self)))%nat as Hpos
      by (destruct (failed_tables (stats self)); [done|simpl; lia]).
    split; split.
    + intros Hin.
      repeat (apply elem_of_cons in Hin as [Hin|Hin]; [discriminate|]).
      by apply elem_of_nil in Hin.
    + lia.
    + intros _. lia.
    + intros _. eexists. in_list.
Qed.

Lemma summary_reports_success_iff_five_loaded_witness :
  let e := {|
    bronze_patients := None; bronze_claims := None;
    bronze_claims_transactions := None; bronze_encounters := None;
    bronze_payers := Some [BPayer.mk (Some "P1") (Some "Medicare")];
    create_schema_raises := λ _, false; to_sql_raises := λ _, false;
    silver := ∅ |} in
  let self := @load_silver Iso.pandas
    {| engine := e; processing_timestamp := 0;
       stats := {| loaded_tables := 0; total_records := 0; failed_tables := [] |};
       log := [] |} in
  (SummaryAllSucceeded ∈ _summarize_run self ↔ loaded_tables (stats self) = 5%nat)
  ∧ ((∃ names, SummaryFailed names ∈ _summarize_run self)
     ↔ (loaded_tables (stats self) < 5)%nat).
Proof.
  intros e self.
  apply (summary_reports_success_iff_five_loaded Iso.pandas (Some e) 0 self).
  reflexivity.
Defined.

(** ** A run on an empty Bronze layer *)

Lemma load_to_silver_empty self table_name schema :
  _load_to_silver self [] table_name schema
  = record_failure self (WarningEmpty table_name) table_name.
Proof. unfold _load_to_silver. by rewrite decide_True. Qed.

(** X15: when every Bronze table is empty or cannot be read, a run loads
    nothing: each of the five tables is logged as empty and added under its
    plain name to the failed tables, the counts of loaded tables and records
    stay as they were, and the store is left untouched. *)
Theorem nothing_is_loaded_from_an_empty_bronze (P : Pandas) self :
  _extract_from_bronze (bronze_patients (engine self)) = [] →
  _extract_from_bronze (bronze_claims (engine self)) = [] →
  _extract_from_bronze (bronze_claims_transactions (engine self)) = [] →
  _extract_from_bronze (bronze_encounters (engine self)) = [] →
  _extract_from_bronze (bronze_payers (engine self)) = [] →
  load_silver self
  = {| engine := engine self;
       processing_timestamp := processing_timestamp self;
       stats := {|
         loaded_tables := loaded_tables (stats self);
         total_records := total_records (stats self);
         failed_tables :=
           (failed_tables (stats self)
            ++ ["silver_patients_dim"; "silver_claims_fact";
                "silver_claims_transactions_fact"; "silver_encounters_fact";
                "silver_payers_dim"])%list |};
       log := (log self
               ++ (WarningEmpty <$>
                     ["silver_patients_dim"; "silver_claims_fact";
                      "silver_claims_transactions_fact"; "silver_encounters_fact";
                      "silver_payers_dim"]))%list |}.
Proof.
  intros Hp Hc Ht He Hy. unfold load_silver. cbv zeta.
  rewrite Hp, Hc, Ht, He, Hy.
  change (_transform_patients (processing_timestamp self) [] [] [])
    with (@nil SPatient.t).
  change (_transform_claims [] []) with (@nil SClaim.t).
  change (_transform_claims_transactions []) with (@nil STransaction.t).
  change (_transform_encounters []) with (@nil SEncounter.t).
  change (_transform_payers []) with (@nil SPayer.t).
  rewrite !fmap_nil, !load_to_silver_empty. unfold record_failure. simpl.
  by rewrite <- !(assoc_L app).
Qed.

Lemma nothing_is_loaded_from_an_empty_bronze_witness :
  let e := {|
    bronze_patients := None; bronze_claims := Some [];
    bronze_claims_transactions := None; bronze_encounters := Some [];
    bronze_payers := None;
    create_schema_raises := λ _, false; to_sql_raises := λ _, false;
    silver := {["silver_payers_dim" := []]} |} in
  let self := {| engine := e; processing_timestamp := 0;
                 stats := {| loaded_tables := 0; total_records := 0;
                             failed_tables := [] |};
                 log := [] |} in
  @load_silver Iso.pandas self
  = {| engine := e; processing_timestamp := 0;
       stats := {|
         loaded_tables := 0; total_records := 0;
         failed_tables :=
           ["silver_patients_dim"; "silver_claims_fact";
            "silver_claims_transactions_fact"; "silver_encounters_fact";
            "silver_payers_dim"] |};
       log := WarningEmpty <$>
                ["silver_patients_dim"; "silver_claims_fact";
                 "silver_claims_transactions_fact"; "silver_encounters_fact";
                 "silver_payers_dim"] |}.
Proof.
  intros e self.
  apply (nothing_is_loaded_from_an_empty_bronze Iso.pandas self); reflexivity.
Defined.

(** ** The birth dates the age check lets through *)

Lemma age_of_days_range d : 0 ≤ age_of_days d ≤ 120 ↔ -365 ≤ d ≤ 44195.
Proof.
  unfold age_of_days. Z.to_euclidean_division_equations. lia.
Qed.

Section PatientAges.
Context `{Pandas}.

Lemma transform_patients_age ts df_patients df_encounters df_payers r :
  r ∈ _transform_patients ts df_patients df_encounters df_payers →
  ∃ born, SPatient.date_of_birth r = Some born
    ∧ SPatient.age r = age_of_days (days (ts - born)).
Proof.
  intros Hr.
  assert (_transform_patients ts df_patients df_encounters df_payers ≠ []) as Hne
    by (intros Heq; rewrite Heq in Hr; by apply elem_of_nil in Hr).
  apply transform_patients_nonempty in Hne as Htry.
  destruct (transform_patients_try_rows _ _ _ _ _ Htry) as (base & Hbase & Hto & _).
  destruct (Hto r Hr) as (r0 & Hr0 & Hsame).
  destruct (patients_base_rows _ _ _ Hbase) as [Hrows _].
  destruct (Hrows r0 Hr0) as (p & d & Hp & (born & -> & ->)).
  destruct Hsame as (_ & _ & _ & Hd & _ & Ha). by exists born.
Qed.

End PatientAges.

(** X16: the age of a patient row passes the schema's range of 0 to 120
    exactly when the whole days from the birth date to the processing
    timestamp lie between -365 and 44195: a birth date up to 365 days after
    the run still gives age 0. *)
Theorem age_check_window (P : Pandas) ts df_patients df_encounters df_payers r :
  r ∈ _transform_patients ts df_patients df_encounters df_payers →
  ∃ born, SPatient.date_of_birth r = Some born
    ∧ (0 ≤ SPatient.age r ≤ 120 ↔ -365 ≤ days (ts - born) ≤ 44195).
Proof.
  intros Hr. apply transform_patients_age in Hr as (born & Hborn & ->).
  exists born. split; [done|]. apply age_of_days_range.
Qed.

Lemma age_check_window_witness :
  let ts := Iso.days_from_civil 2024 6 1 * NS_PER_DAY in
  let born := Iso.days_from_civil 2025 6 1 * NS_PER_DAY in
  let r := SPatient.mk (Some "p1") (Some "Ada") (Some "King") (Some born)
             (Some "Female") 0 None (Some DEFAULT_PAYER) in
  ∃ born', SPatient.date_of_birth r = Some born'
    ∧ (0 ≤ SPatient.age r ≤ 120 ↔ -365 ≤ days (ts - born') ≤ 44195).
Proof.
  intros ts born r.
  apply (age_check_window Iso.pandas ts
           [BPatient.mk (Some "p1") (Some "ada") (Some "king") (Some "2025-06-01")
              (Some "F")] [] []).
  apply list_elem_of_singleton. by vm_compute.
Defined.
